(** * Stationery shop inventory (nationbook.py): a shallow embedding

    The program is a Streamlit script.  Its whole state is one Python
    dict, [st.session_state.stationery_inventory], from item name to a
    record of five fields.  Each page function ([add_item],
    [view_inventory], [search_item], [update_item]) reads its widgets,
    possibly mutates the dict and emits messages.

    The embedding follows that shape:
    - a Python [str] is a list of Unicode code points;
    - the dict is an association list in insertion order (the order matters
      for the table and for the floating-point total);
    - quantities are Python ints ([Z]); prices are binary64 floats; the
      Quantity column of the table has the integer type pandas infers for
      it (a sum of 64-bit integers wraps around);
    - a page function is a function from the inventory and the values of
      its widgets to either a raised exception or the new inventory
      together with the messages it emitted, in order;
    - calls into Streamlit and pandas that refuse their arguments raise:
      the styled table of the view page ([ValueError]) and the number
      inputs of the update page ([StreamlitAPIException]). *)

From Stdlib Require Import String Ascii.
From Stdlib Require Import ZArith NArith Bool Lia List Permutation.
From Stdlib Require Import PrimFloat SpecFloat FloatOps.
Import ListNotations.

Set Implicit Arguments.

(* ================================================================== *)
(** ** Python strings *)

Module Str.

Local Open Scope N_scope.

Definition char := N.
Definition str := list char.

(** ASCII literals. *)
Definition lit (s : string) : str := map N_of_ascii (list_ascii_of_string s).

Definition str_eq_dec : forall a b : str, {a = b} + {a <> b} :=
  list_eq_dec N.eq_dec.

(** [bool(s)]: a string is truthy when it is not empty. *)
Definition truthy (s : str) : bool :=
  match s with [] => false | _ :: _ => true end.

(** [str.isspace] on one code point: the complete list of code points
    Python treats as whitespace. *)
Definition isspace (c : char) : bool :=
  ((9 <=? c) && (c <=? 13)) || ((28 <=? c) && (c <=? 32))
  || (c =? 0x85) || (c =? 0xA0) || (c =? 0x1680)
  || ((0x2000 <=? c) && (c <=? 0x200A))
  || (c =? 0x2028) || (c =? 0x2029) || (c =? 0x202F)
  || (c =? 0x205F) || (c =? 0x3000).

Fixpoint lstrip (s : str) : str :=
  match s with
  | [] => []
  | c :: t => if isspace c then lstrip t else s
  end.

Definition rstrip (s : str) : str := rev (lstrip (rev s)).

(** [s.strip()] *)
Definition strip (s : str) : str := rstrip (lstrip s).

(** Case data.  The ASCII range is tabulated in full.  Outside it the
    table holds U+01F0 (small j with caron), whose title-case form is the
    two code points U+004A U+030C; every other code point is taken as
    caseless, so results that depend on case data are stated for ASCII
    text or for these code points. *)
Definition is_ascii_upper (c : char) : bool := (65 <=? c) && (c <=? 90).
Definition is_ascii_lower (c : char) : bool := (97 <=? c) && (c <=? 122).

Definition iscased (c : char) : bool :=
  is_ascii_upper c || is_ascii_lower c || (c =? 0x1F0).

Definition tolower_full (c : char) : list char :=
  if is_ascii_upper c then [c + 32] else [c].

Definition totitle_full (c : char) : list char :=
  if is_ascii_lower c then [c - 32]
  else if c =? 0x1F0 then [0x4A; 0x30C]
  else [c].

(** The case mapping applied to one character by [title]. *)
Definition case_map (previous_is_cased : bool) (c : char) : list char :=
  if previous_is_cased then tolower_full c else totitle_full c.

(** [s.title()]: a character that follows a cased character is
    lower-cased, any other is title-cased. *)
Fixpoint do_title (previous_is_cased : bool) (s : str) : str :=
  match s with
  | [] => []
  | c :: t =>
      case_map previous_is_cased c ++ do_title (iscased c) t
  end.

Definition title (s : str) : str := do_title false s.

(** [text.strip().title()], the normalization applied to the text of a
    name field (lines 25, 138 and 181) and of the brand field of the add
    form (line 27). *)
Definition normalize (s : str) : str := title (strip s).

Definition is_ascii (c : char) : Prop := c < 128.

(** A string is stripped when it neither starts nor ends with
    whitespace. *)
Definition stripped (s : str) : Prop :=
  lstrip s = s /\ lstrip (rev s) = rev s.

(** The check made on each ASCII character: its case mapping is one
    ASCII character of the same class (whitespace or not, cased or not)
    that the same mapping leaves alone. *)
Definition ascii_ok (b : bool) (c : char) : bool :=
  match case_map b c with
  | [d] =>
      (d <? 128) && Bool.eqb (isspace d) (isspace c)
      && Bool.eqb (iscased d) (iscased c)
      && match case_map b d with [d'] => d' =? d | _ => false end
  | _ => false
  end.

End Str.

Import Str.

(* ================================================================== *)
(** ** Exceptions *)

Inductive exn : Type :=
| KeyError (key : str)
| ValueError
| OverflowError
| StreamlitAPIException.

Inductive result (A : Type) : Type :=
| Ok (a : A)
| Raise (e : exn).

Arguments Ok {A} a.
Arguments Raise {A} e.

Definition bind {A B : Type} (m : result A) (k : A -> result B) : result B :=
  match m with
  | Ok a => k a
  | Raise e => Raise e
  end.

Notation "x <- m ;; k" := (bind m (fun x => k))
  (at level 61, m at next level, right associativity).

(* ================================================================== *)
(** ** Python dicts, in insertion order *)

Module Dict.
Section Dict.

Variable V : Type.

Definition dict := list (str * V).

(** [d.get(k)], and [d[k]] where it is known to succeed *)
Fixpoint get (k : str) (d : dict) : option V :=
  match d with
  | [] => None
  | (k', v) :: t => if str_eq_dec k k' then Some v else get k t
  end.

(** [k in d] *)
Definition contains (k : str) (d : dict) : bool :=
  match get k d with Some _ => true | None => false end.

(** [d[k]] *)
Definition getitem (k : str) (d : dict) : result V :=
  match get k d with Some v => Ok v | None => Raise (KeyError k) end.

(** [d[k] = v]: an existing key keeps its place, a new key goes last. *)
Fixpoint set (k : str) (v : V) (d : dict) : dict :=
  match d with
  | [] => [(k, v)]
  | (k', v') :: t =>
      if str_eq_dec k k' then (k', v) :: t else (k', v') :: set k v t
  end.

Fixpoint remove (k : str) (d : dict) : dict :=
  match d with
  | [] => []
  | (k', v') :: t => if str_eq_dec k k' then t else (k', v') :: remove k t
  end.

(** [d.pop(k)] *)
Definition pop (k : str) (d : dict) : result (V * dict) :=
  match get k d with
  | Some v => Ok (v, remove k d)
  | None => Raise (KeyError k)
  end.

(** [d.keys()] *)
Definition keys (d : dict) : list str := map fst d.

(** The keys of a dict are pairwise distinct. *)
Definition wf (d : dict) : Prop := NoDup (keys d).

End Dict.
End Dict.

(* ================================================================== *)
(** ** The data model *)

(** The entries of [CATEGORIES] (lines 9-18). *)
Inductive category_label : Type :=
| Writing_Instruments
| Paper_Products
| Correction_Tools
| Geometry_Tools
| Files_and_Folders
| Office_Supplies
| Art_and_Craft
| School_Essentials.

Definition CATEGORIES : list category_label :=
  [ Writing_Instruments; Paper_Products; Correction_Tools; Geometry_Tools;
    Files_and_Folders; Office_Supplies; Art_and_Craft; School_Essentials ].

Definition category_eq_dec (a b : category_label) : {a = b} + {a <> b}.
Proof. decide equality. Defined.

(** [l.index(c)] *)
Fixpoint index (c : category_label) (l : list category_label) : result nat :=
  match l with
  | [] => Raise ValueError
  | x :: t => if category_eq_dec c x then Ok 0%nat
              else i <- index c t ;; Ok (S i)
  end.

(** The value stored under an item name (lines 40-46 and 216-222). *)
Record item : Type := {
  category : category_label;
  quantity : Z;
  publisher : str;
  price : float;
  min_stock : Z
}.

(** [st.session_state.stationery_inventory] *)
Definition inventory : Type := Dict.dict item.

(** One row of the table shown by [view_inventory], with the column names
    of line 72. *)
Record row : Type := {
  Name : str;
  Category : category_label;
  Brand : str;
  Price : float;
  Quantity : Z;
  Min_Stock : Z;
  Status : str
}.

(** What the script shows, one constructor for each call that reports
    something; the comment gives the line. *)
Inductive output : Type :=
| Success_quantity_updated (name : str)                       (* 38 *)
| Success_added (name : str)                                  (* 47 *)
| Error_enter_item_name                                       (* 52 *)
| Info_no_items_in_stock                                      (* 58 *)
| Dataframe (df : list row)                                   (* 92 *)
| Metrics (total_items : nat) (total_quantity : Z)
          (total_value : float) (low_stock_items : nat)       (* 109-112 *)
| Warning_low_stock_alert (name : str) (current minimum : Z)  (* 124 *)
| Sidebar_error_low_stock_alert                               (* 132 *)
| Sidebar_write (name : str)                                  (* 134 *)
| Success_item_found                                          (* 143 *)
| Markdown_details (name : str) (it : item)                   (* 147-153 *)
| Error_low_stock (current minimum : Z)                       (* 157 *)
| Success_stock_adequate (current : Z)                        (* 159 *)
| Error_item_not_found                                        (* 161 *)
| Warning_no_items_to_update                                  (* 168 *)
| Success_updated (name : str)                                (* 223 *)
| Sidebar_summary (total_items : nat) (total_qty : Z)
                  (total_value : float)                       (* 256-258 *)
| Sidebar_info_no_items.                                      (* 263 *)

(* ================================================================== *)
(** ** check_stock_balance (lines 114-134) *)

Definition check_stock_balance (inv : inventory) (item_name : option str)
  : result (list output) :=
  match inv with
  | [] => Ok []
  | _ :: _ =>
      match item_name with
      | Some ((_ :: _) as name) =>
          it <- Dict.getitem name inv ;;
          Ok (if (quantity it <? min_stock it)%Z
              then [Warning_low_stock_alert name (quantity it) (min_stock it)]
              else [])
      | _ =>
          let low_stock_items :=
            map fst (filter (fun kv => (quantity (snd kv) <? min_stock (snd kv))%Z) inv) in
          Ok (match low_stock_items with
              | [] => []
              | _ :: _ => Sidebar_error_low_stock_alert
                            :: map Sidebar_write low_stock_items
              end)
      end
  end.

(* ================================================================== *)
(** ** add_item (lines 20-52) *)

(** The values of the widgets of the add form.  The two text fields hold
    the text as typed; the three numbers come from inputs with
    [min_value=0]. *)
Record add_form : Type := {
  add_name : str;
  add_category : category_label;
  add_publisher : str;
  add_quantity : Z;
  add_price : float;
  add_min_stock : Z
}.

Definition add_quantity_to (it : item) (n : Z) : item :=
  {| category := category it;
     quantity := quantity it + n;
     publisher := publisher it;
     price := price it;
     min_stock := min_stock it |}.

Definition add_item (inv : inventory) (f : add_form) (submitted : bool)
  : result (inventory * list output) :=
  let name := normalize (add_name f) in
  let publisher := normalize (add_publisher f) in
  if submitted then
    if truthy name then
      let (inv', said) :=
        match Dict.get name inv with
        | Some it =>
            (Dict.set name (add_quantity_to it (add_quantity f)) inv,
             Success_quantity_updated name)
        | None =>
            (Dict.set name
               {| category := add_category f;
                  quantity := add_quantity f;
                  publisher := publisher;
                  price := add_price f;
                  min_stock := add_min_stock f |} inv,
             Success_added name)
        end in
      alert <- check_stock_balance inv' (Some name) ;;
      Ok (inv', said :: alert)
    else Ok (inv, [Error_enter_item_name])
  else Ok (inv, []).

(* ================================================================== *)
(** ** view_inventory (lines 54-112) *)

Definition green_circle : char := 0x1F7E2%N.
Definition red_circle : char := 0x1F534%N.
Definition status_adequate : str := green_circle :: lit " Adequate".
Definition status_low_stock : str := red_circle :: lit " Low Stock".

(** Lines 61-70: one row per item, in the order of the dict. *)
Definition row_of (kv : str * item) : row :=
  let it := snd kv in
  {| Name := fst kv;
     Category := category it;
     Brand := publisher it;
     Price := price it;
     Quantity := quantity it;
     Min_Stock := min_stock it;
     Status := if (quantity it >=? min_stock it)%Z
               then status_adequate else status_low_stock |}.

(** [s.startswith(p)] and the search done by [Series.str.contains] for a
    pattern without special characters. *)
Fixpoint startswith (p s : str) : bool :=
  match p, s with
  | [], _ => true
  | _ :: _, [] => false
  | a :: p', b :: s' => (a =? b)%N && startswith p' s'
  end.

Fixpoint str_contains (p s : str) : bool :=
  startswith p s ||
  match s with
  | [] => false
  | _ :: t => str_contains p t
  end.

(** The two selectboxes of the sidebar. *)
Inductive category_choice : Type :=
| All_categories
| Only (c : category_label).

Inductive status_choice : Type :=
| All_statuses
| Adequate
| Low_Stock.

(** Lines 85-90 *)
Definition apply_filters (df : list row)
           (filter_category : category_choice) (filter_status : status_choice)
  : list row :=
  let df :=
    match filter_category with
    | All_categories => df
    | Only c => filter (fun r => if category_eq_dec (Category r) c
                                 then true else false) df
    end in
  match filter_status with
  | All_statuses => df
  | _ =>
      let status_filter :=
        match filter_status with Adequate => true | _ => false end in
      filter (fun r => str_contains
                         [if status_filter then green_circle else red_circle]
                         (Status r)) df
  end.

(** The float nearest to an int, ties to even: what multiplying a float
    by an int does to the int.  [OverflowError] is raised when the nearest
    float would be infinite. *)
Definition nearest_float (n : Z) : spec_float :=
  binary_normalize prec emax n 0 false.

Definition python_float (n : Z) : result float :=
  match nearest_float n with
  | S754_infinity _ => Raise OverflowError
  | sf => Ok (SF2Prim sf)
  end.

(** How pandas stores a column of Python ints (line 61): as 64-bit signed
    integers when every value fits, as 64-bit unsigned integers when none
    is negative and every value is below 2^64, as Python objects
    otherwise. *)
Inductive dtype : Type := int64 | uint64 | object.

Definition infer_dtype (values : list Z) : dtype :=
  if forallb (fun z => (- 2 ^ 63 <=? z) && (z <? 2 ^ 63))%Z values then int64
  else if forallb (fun z => (0 <=? z) && (z <? 2 ^ 64))%Z values then uint64
  else object.

(** A sum of 64-bit integers wraps around; a sum of Python ints is
    exact. *)
Definition wrap64 (z : Z) : Z := ((z + 2 ^ 63) mod 2 ^ 64 - 2 ^ 63)%Z.

Definition reduce (d : dtype) (z : Z) : Z :=
  match d with
  | int64 => wrap64 z
  | uint64 => (z mod 2 ^ 64)%Z
  | object => z
  end.

(** The sum of floats, adding from the first on: the order of Python's
    [sum] (up to version 3.11) and of a column of fewer than eight
    rows. *)
Definition float_sum (l : list float) : float :=
  fold_left PrimFloat.add l 0%float.

Definition int_sum (l : list Z) : Z := fold_left Z.add l 0%Z.

(** The sum of a column leaves out the entries that are not a number. *)
Definition skipna (x : float) : float :=
  if PrimFloat.is_nan x then 0%float else x.

(** Line 104: the products of the Price and the Quantity column.  A
    quantity of an integer column is below 2^64 and always has a nearest
    float. *)
Fixpoint row_values (df : list row) : result (list float) :=
  match df with
  | [] => Ok []
  | r :: t =>
      q <- python_float (Quantity r) ;;
      rest <- row_values t ;;
      Ok (PrimFloat.mul (Price r) q :: rest)
  end.

(** Lines 102-105.  [d] is the type of the Quantity column, fixed when the
    table is built at line 61 and kept by the filters. *)
Definition total_items (df : list row) : nat := List.length df.
Definition total_quantity (d : dtype) (df : list row) : Z :=
  reduce d (int_sum (map Quantity df)).
Definition total_value (df : list row) : result float :=
  values <- row_values df ;;
  Ok (float_sum (map skipna values)).
Definition low_stock_items (df : list row) : nat :=
  List.length (filter (fun r => if str_eq_dec (Status r) status_low_stock
                                then true else false) df).

(** Lines 92-99.  The style function is applied to each row and must
    return one style for each of the seven columns; it returns one for
    each row of the table instead.  pandas refuses that with [ValueError]
    when the table is drawn, unless the table has seven rows or none. *)
Definition st_dataframe (df : list row) : result output :=
  if (List.length df =? 0)%nat || (List.length df =? 7)%nat
  then Ok (Dataframe df)
  else Raise ValueError.

Definition view_inventory (inv : inventory)
           (filter_category : category_choice) (filter_status : status_choice)
  : result (list output) :=
  match inv with
  | [] => Ok [Info_no_items_in_stock]
  | _ :: _ =>
      let d := infer_dtype (map (fun kv => quantity (snd kv)) inv) in
      let df := apply_filters (map row_of inv) filter_category filter_status in
      table <- st_dataframe df ;;
      let total_items := total_items df in
      let total_quantity := total_quantity d df in
      total_value <- total_value df ;;
      let low_stock_items := low_stock_items df in
      Ok [ table;
           Metrics total_items total_quantity total_value low_stock_items ]
  end.

(* ================================================================== *)
(** ** search_item (lines 136-161) *)

Definition search_item (inv : inventory) (text : str) : list output :=
  let search_term := normalize text in
  if truthy search_term then
    match Dict.get search_term inv with
    | Some it =>
        [ Success_item_found;
          Markdown_details search_term it;
          if (quantity it <? min_stock it)%Z
          then Error_low_stock (quantity it) (min_stock it)
          else Success_stock_adequate (quantity it) ]
    | None => [Error_item_not_found]
    end
  else [].

(* ================================================================== *)
(** ** update_item (lines 163-226) *)

(** The values of the widgets of the update form.  The name is the text
    as typed; the brand is stored as typed (line 187 does not normalize
    it).  Drawing the number inputs of the form can itself fail; that is
    [update_form_defaults] below, which [main] runs with [update_item]. *)
Record update_form : Type := {
  new_name_text : str;
  new_category : category_label;
  new_publisher : str;
  new_price : float;
  new_quantity : Z;
  new_min_stock : Z
}.

Definition update_item (inv : inventory) (selected_item : str)
           (f : update_form) (submitted : bool)
  : result (inventory * list output) :=
  match Dict.keys inv with
  | [] => Ok (inv, [Warning_no_items_to_update])
  | _ :: _ =>
      if truthy selected_item then
        it <- Dict.getitem selected_item inv ;;
        _ <- index (category it) CATEGORIES ;;
        let new_name := normalize (new_name_text f) in
        if submitted then
          renamed <-
            (if str_eq_dec new_name selected_item
             then Ok (inv, selected_item)
             else popped <- Dict.pop selected_item inv ;;
                  Ok (Dict.set new_name (fst popped) (snd popped), new_name)) ;;
          let selected_item := snd renamed in
          let inv' :=
            Dict.set selected_item
              {| category := new_category f;
                 publisher := new_publisher f;
                 price := new_price f;
                 quantity := new_quantity f;
                 min_stock := new_min_stock f |} (fst renamed) in
          alert <- check_stock_balance inv' (Some selected_item) ;;
          Ok (inv', Success_updated selected_item :: alert)
        else Ok (inv, [])
      else Ok (inv, [])
  end.

(* ================================================================== *)
(** ** main (lines 228-266) *)

(** The page chosen in the sidebar, with the values of its widgets. *)
Inductive page : Type :=
| Add_New_Item (f : add_form) (submitted : bool)
| View_Inventory (filter_category : category_choice)
                 (filter_status : status_choice)
| Search_Item (text : str)
| Update_Item (selected_item : str) (f : update_form) (submitted : bool).

(** Line 254: the values [item['price'] * item['quantity']], in the
    order of the dict. *)
Fixpoint item_values (inv : inventory) : result (list float) :=
  match inv with
  | [] => Ok []
  | kv :: t =>
      q <- python_float (quantity (snd kv)) ;;
      rest <- item_values t ;;
      Ok (PrimFloat.mul (price (snd kv)) q :: rest)
  end.

(** Lines 251-263.  The quantities are Python ints and their sum is
    exact.  The total value is accumulated by [sum] from the first item
    on. *)
Definition sidebar (inv : inventory) : result (list output) :=
  match inv with
  | [] => Ok [Sidebar_info_no_items]
  | _ :: _ =>
      let total_items := List.length inv in
      let total_qty := int_sum (map (fun kv => quantity (snd kv)) inv) in
      values <- item_values inv ;;
      let total_value := float_sum values in
      alert <- check_stock_balance inv None ;;
      Ok (Sidebar_summary total_items total_qty total_value :: alert)
  end.

(** Lines 189-206: [st.number_input] with a minimum of zero refuses a
    default below the minimum; an int default must not exceed 2^53 - 1,
    the largest int a browser holds exactly, and a float default must be
    finite. *)
Definition number_input_default (value : Z) : result unit :=
  if ((0 <=? value) && (value <=? 2 ^ 53 - 1))%Z
  then Ok tt else Raise StreamlitAPIException.

Definition number_input_float_default (value : float) : result unit :=
  if (PrimFloat.ltb value 0 || PrimFloat.eqb value infinity)%bool
  then Raise StreamlitAPIException else Ok tt.

(** Drawing the update form (lines 173-206) for the selected item: the
    stored price, the stored quantity and the stored minimum are the
    defaults of the three number inputs.  A quantity grown past 2^53 - 1
    by repeated adds makes the form fail. *)
Definition update_form_defaults (inv : inventory) (selected_item : str)
  : result unit :=
  if truthy selected_item then
    match Dict.get selected_item inv with
    | Some it =>
        _ <- number_input_float_default (price it) ;;
        _ <- number_input_default (quantity it) ;;
        number_input_default (min_stock it)
    | None => Ok tt
    end
  else Ok tt.

Definition main (inv : inventory) (p : page)
  : result (inventory * list output) :=
  side <- sidebar inv ;;
  shown <-
    match p with
    | Add_New_Item f submitted => add_item inv f submitted
    | View_Inventory fc fs =>
        table <- view_inventory inv fc fs ;; Ok (inv, table)
    | Search_Item text => Ok (inv, search_item inv text)
    | Update_Item selected_item f submitted =>
        _ <- update_form_defaults inv selected_item ;;
        update_item inv selected_item f submitted
    end ;;
  Ok (fst shown, side ++ snd shown).

(** The values the widgets can deliver: the number inputs have
    [min_value=0], and the selectbox of the update page offers the keys of
    the inventory. *)
Definition widgets_ok (inv : inventory) (p : page) : Prop :=
  match p with
  | Add_New_Item f _ =>
      (0 <= add_quantity f)%Z /\ PrimFloat.leb 0 (add_price f) = true
      /\ (0 <= add_min_stock f)%Z
  | View_Inventory _ _ => True
  | Search_Item _ => True
  | Update_Item selected_item f _ =>
      (inv <> [] -> In selected_item (Dict.keys inv))
      /\ (0 <= new_quantity f)%Z /\ PrimFloat.leb 0 (new_price f) = true
      /\ (0 <= new_min_stock f)%Z
  end.

(** The inventories a session can reach from the empty one (line 6). *)
Inductive reachable : inventory -> Prop :=
| reachable_init : reachable []
| reachable_step inv p inv' out :
    reachable inv -> widgets_ok inv p -> main inv p = Ok (inv', out) ->
    reachable inv'.

(* ================================================================== *)
(** ** Derived notions *)

(** The alert for one item: a warning with the name, the quantity and the
    threshold when the quantity is below the threshold. *)
Definition alert_for (name : str) (it : item) : list output :=
  if (quantity it <? min_stock it)%Z
  then [Warning_low_stock_alert name (quantity it) (min_stock it)]
  else [].

(** The alert for the whole inventory: a heading and the names of the low
    items, in the sidebar. *)
Definition alert_all (inv : inventory) : list output :=
  match map fst (filter (fun kv => (quantity (snd kv) <? min_stock (snd kv))%Z) inv) with
  | [] => []
  | (_ :: _) as names => Sidebar_error_low_stock_alert :: map Sidebar_write names
  end.

(** The record written by the add form. *)
Definition item_of_add (f : add_form) : item :=
  {| category := add_category f;
     quantity := add_quantity f;
     publisher := normalize (add_publisher f);
     price := add_price f;
     min_stock := add_min_stock f |}.

(** The record written by the update form. *)
Definition item_of_update (f : update_form) : item :=
  {| category := new_category f;
     publisher := new_publisher f;
     price := new_price f;
     quantity := new_quantity f;
     min_stock := new_min_stock f |}.

(** The test of lines 123, 127 and 156 on an entry of the inventory. *)
Definition is_low (kv : str * item) : bool :=
  (quantity (snd kv) <? min_stock (snd kv))%Z.

(** The table for one category. *)
Definition of_category (c : category_label) (df : list row) : list row :=
  apply_filters df (Only c) All_statuses.

(** The two messages that report a failure: the blank name of the add
    form (line 52) and the miss of the search page (line 161). *)
Definition is_failure (o : output) : bool :=
  match o with
  | Error_enter_item_name | Error_item_not_found => true
  | _ => false
  end.

(** No failure message among the messages shown. *)
Definition quiet (out : list output) : Prop :=
  Forall (fun o => is_failure o = false) out.

(** The names listed under the alert of the sidebar. *)
Definition listed_names (out : list output) : list str :=
  flat_map (fun o => match o with Sidebar_write name => [name] | _ => [] end) out.

(** Quantity, price and minimum of a record are not negative. *)
Definition nonnegative (it : item) : Prop :=
  (0 <= quantity it)%Z /\ PrimFloat.leb 0 (price it) = true
  /\ (0 <= min_stock it)%Z.

(** [c.lower()] on an ASCII character, and [s.lower()] on ASCII text. *)
Definition ascii_lower (c : char) : char :=
  if is_ascii_upper c then (c + 32)%N else c.

Definition casefold (s : str) : str := map ascii_lower s.

(** The check made on each ASCII character for case-insensitivity: the
    character and its lower-case form have the same case mappings and the
    same class. *)
Definition ascii_fold_ok (c : char) : bool :=
  (ascii_lower c <? 128)%N
  && Bool.eqb (isspace (ascii_lower c)) (isspace c)
  && Bool.eqb (iscased (ascii_lower c)) (iscased c)
  && (if list_eq_dec N.eq_dec (case_map true (ascii_lower c)) (case_map true c)
      then true else false)
  && (if list_eq_dec N.eq_dec (case_map false (ascii_lower c)) (case_map false c)
      then true else false).

(** Title case, read on the result: a letter that follows a letter is
    not upper case, and a letter that follows anything else, or nothing,
    is not lower case. *)
Fixpoint title_shape (previous_is_cased : bool) (s : str) : bool :=
  match s with
  | [] => true
  | c :: t =>
      (if previous_is_cased then negb (is_ascii_upper c)
       else negb (is_ascii_lower c))
      && title_shape (iscased c) t
  end.

(** The check made on each ASCII character for the shape: its case
    mapping is one character of the right case. *)
Definition ascii_shape_ok (b : bool) (c : char) : bool :=
  match case_map b c with
  | [d] => if b then negb (is_ascii_upper d) else negb (is_ascii_lower d)
  | _ => false
  end.

(** The two filters of the view page, on an item: the category chosen
    (line 87) and the status chosen (lines 68 and 90). *)
Definition category_matches (fc : category_choice) (it : item) : bool :=
  match fc with
  | All_categories => true
  | Only c => if category_eq_dec (category it) c then true else false
  end.

Definition status_matches (fs : status_choice) (it : item) : bool :=
  match fs with
  | All_statuses => true
  | Adequate => (min_stock it <=? quantity it)%Z
  | Low_Stock => (quantity it <? min_stock it)%Z
  end.

(* ================================================================== *)
(** ** Example data *)

(** The add form of the scenario: pencil, Writing Instruments, brand abc,
    price 2.50, quantity 10, minimum 5. *)
Definition pencil_form : add_form :=
  {| add_name := lit "pencil";
     add_category := Writing_Instruments;
     add_publisher := lit "abc";
     add_quantity := 10;
     add_price := 2.5%float;
     add_min_stock := 5 |}.

Definition pen_item : item :=
  {| category := Writing_Instruments; quantity := 10; publisher := lit "Abc";
     price := 2.5%float; min_stock := 5 |}.

Definition ink_item : item :=
  {| category := Office_Supplies; quantity := 1; publisher := lit "Xyz";
     price := 40%float; min_stock := 3 |}.

Definition pen_and_ink : inventory := [(lit "Pen", pen_item); (lit "Ink", ink_item)].

(** The update form filled in to rename the selected item to "ink". *)
Definition rename_to_ink : update_form :=
  {| new_name_text := lit " ink";
     new_category := Writing_Instruments;
     new_publisher := lit "abc";
     new_price := 3%float;
     new_quantity := 7;
     new_min_stock := 5 |}.

(** The update form with the name field blanked out, and a quantity below
    the minimum. *)
Definition blank_name_form : update_form :=
  {| new_name_text := lit "  ";
     new_category := Writing_Instruments;
     new_publisher := lit "abc";
     new_price := 2.5%float;
     new_quantity := 2;
     new_min_stock := 5 |}.

(** Three items priced 0.10, 0.20 and 0.30, one of each. *)
Definition dime_inventory : inventory :=
  [ (lit "Pen",
     {| category := Writing_Instruments; quantity := 1; publisher := lit "Abc";
        price := 0x1.999999999999ap-4%float; min_stock := 5 |});
    (lit "Paper",
     {| category := Paper_Products; quantity := 1; publisher := lit "Abc";
        price := 0x1.999999999999ap-3%float; min_stock := 0 |});
    (lit "Notebook",
     {| category := Paper_Products; quantity := 1; publisher := lit "Abc";
        price := 0x1.3333333333333p-2%float; min_stock := 1 |}) ].

(** The add forms that build [dime_inventory] and [pen_and_ink]. *)
Definition add_form_of (name : string) (it : item) : add_form :=
  {| add_name := lit name;
     add_category := category it;
     add_publisher := publisher it;
     add_quantity := quantity it;
     add_price := price it;
     add_min_stock := min_stock it |}.

(** The scenario goes on: pencil is added again, 3 more, with other
    values in the remaining fields; then it is updated to quantity 2. *)
Definition pencil_again_form : add_form :=
  {| add_name := lit " PENCIL ";
     add_category := Paper_Products;
     add_publisher := lit "xyz";
     add_quantity := 3;
     add_price := 9%float;
     add_min_stock := 50 |}.

Definition pencil_update_form : update_form :=
  {| new_name_text := lit "Pencil";
     new_category := Writing_Instruments;
     new_publisher := lit "Abc";
     new_price := 2.5%float;
     new_quantity := 2;
     new_min_stock := 5 |}.

(** The add form submitted with a blank name. *)
Definition blank_add_form : add_form :=
  {| add_name := lit "   ";
     add_category := Paper_Products;
     add_publisher := lit "abc";
     add_quantity := 4;
     add_price := 1.5%float;
     add_min_stock := 5 |}.

(** One item whose quantity has grown to 2^53 by repeated adds. *)
Definition worn_pen : inventory :=
  [(lit "Pen",
    {| category := Writing_Instruments; quantity := 2 ^ 53;
       publisher := lit "Abc"; price := 2.5%float; min_stock := 5 |})].

(** Seven items, three of them below their minimum. *)
Definition seven_items : inventory :=
  [ (lit "Pen", pen_item);
    (lit "Ink", ink_item);
    (lit "Paper",
     {| category := Paper_Products; quantity := 500; publisher := lit "Abc";
        price := 0.5%float; min_stock := 100 |});
    (lit "Eraser",
     {| category := Correction_Tools; quantity := 0; publisher := lit "Abc";
        price := 5%float; min_stock := 2 |});
    (lit "Ruler",
     {| category := Geometry_Tools; quantity := 4; publisher := lit "Abc";
        price := 12%float; min_stock := 4 |});
    (lit "Folder",
     {| category := Files_and_Folders; quantity := 2; publisher := lit "Abc";
        price := 15%float; min_stock := 6 |});
    (lit "Glue",
     {| category := Art_and_Craft; quantity := 7; publisher := lit "Abc";
        price := 20%float; min_stock := 5 |}) ].

(** The same seven items, 2^62 of each. *)
Definition seven_heavy : inventory :=
  map (fun kv => (fst kv,
                  {| category := category (snd kv); quantity := 2 ^ 62;
                     publisher := publisher (snd kv); price := price (snd kv);
                     min_stock := min_stock (snd kv) |})) seven_items.

(* ================================================================== *)
(** * Properties *)

(** ** Strings *)

Module StrFacts.

Import Str.
Local Open Scope N_scope.

(** Facts about [strip] *)

Lemma lstrip_idem s : lstrip (lstrip s) = lstrip s.
Proof.
  induction s as [|c t IH]; simpl; auto.
  destruct (isspace c) eqn:E; auto. simpl. now rewrite E.
Qed.

Lemma lstrip_length s : (List.length (lstrip s) <= List.length s)%nat.
Proof.
  induction s as [|c t IH]; simpl; auto.
  destruct (isspace c); simpl; lia.
Qed.

(** A string that [lstrip] leaves alone does not start with whitespace. *)
Lemma lstrip_fix_head c t : lstrip (c :: t) = c :: t -> isspace c = false.
Proof.
  simpl. destruct (isspace c); auto. intros H.
  pose proof (lstrip_length t) as L. rewrite H in L. simpl in L. lia.
Qed.

Lemma lstrip_app_nonspace s c :
  isspace c = false -> lstrip (s ++ [c]) = lstrip s ++ [c].
Proof.
  intros Hc. induction s as [|d t IH]; simpl.
  - now rewrite Hc.
  - destruct (isspace d); auto.
Qed.

Lemma stripped_strip s : stripped s -> strip s = s.
Proof.
  intros [H1 H2]. unfold strip, rstrip. rewrite H1, H2. apply rev_involutive.
Qed.

Lemma strip_stripped s : stripped (strip s).
Proof.
  unfold stripped, strip, rstrip. rewrite rev_involutive, lstrip_idem.
  split; auto.
  destruct (lstrip s) as [|c u] eqn:E; [reflexivity|].
  assert (Hc : isspace c = false).
  { apply (@lstrip_fix_head c u). rewrite <- E. apply lstrip_idem. }
  simpl rev. rewrite lstrip_app_nonspace by exact Hc.
  rewrite rev_app_distr. simpl. now rewrite Hc.
Qed.

Lemma strip_idem s : strip (strip s) = strip s.
Proof. apply stripped_strip, strip_stripped. Qed.

Lemma lstrip_all_space s : forallb isspace s = true -> lstrip s = [].
Proof.
  induction s as [|c t IH]; simpl; auto.
  destruct (isspace c); simpl; auto. discriminate.
Qed.

Lemma strip_all_space s : forallb isspace s = true -> strip s = [].
Proof. intros H. unfold strip. now rewrite (lstrip_all_space _ H). Qed.

(** Facts about [title] on ASCII text *)

Lemma ascii_ok_table :
  forallb (fun n => ascii_ok true (N.of_nat n) && ascii_ok false (N.of_nat n))
          (seq 0 128) = true.
Proof. vm_compute. reflexivity. Qed.

Lemma ascii_case_map b c :
  is_ascii c ->
  exists d, case_map b c = [d] /\ is_ascii d /\
            isspace d = isspace c /\ iscased d = iscased c /\
            case_map b d = [d].
Proof.
  unfold is_ascii. intros Hc.
  assert (Hin : In (N.to_nat c) (seq 0 128)) by (apply in_seq; lia).
  pose proof (proj1 (forallb_forall _ _) ascii_ok_table _ Hin) as H.
  cbv beta in H. rewrite N2Nat.id in H. apply andb_true_iff in H as [Ht Hf].
  assert (Hb : ascii_ok b c = true) by (destruct b; assumption).
  clear Ht Hf. unfold ascii_ok in Hb.
  destruct (case_map b c) as [|d [|? ?]]; try discriminate.
  exists d. repeat (apply andb_true_iff in Hb as [Hb ?]).
  apply N.ltb_lt in Hb.
  repeat match goal with
         | H : Bool.eqb _ _ = true |- _ => apply Bool.eqb_prop in H
         end.
  destruct (case_map b d) as [|d' [|? ?]]; try discriminate.
  match goal with H : (d' =? d) = true |- _ => apply N.eqb_eq in H; subst d' end.
  repeat split; assumption.
Qed.

Lemma do_title_cons b c t :
  do_title b (c :: t) = case_map b c ++ do_title (iscased c) t.
Proof. reflexivity. Qed.

Lemma do_title_ascii_idem s :
  Forall is_ascii s -> forall b, do_title b (do_title b s) = do_title b s.
Proof.
  induction 1 as [|c t Hc Ht IH]; intros b; [reflexivity|].
  destruct (ascii_case_map b Hc) as (d & E & _ & _ & Ecased & Efix).
  rewrite do_title_cons, E. simpl app.
  rewrite do_title_cons, Efix, Ecased, IH. reflexivity.
Qed.

(** Title-casing ASCII text keeps a string free of leading whitespace
    free of it. *)
Lemma do_title_ascii_lstrip s :
  Forall is_ascii s -> forall b,
  lstrip s = s -> lstrip (do_title b s) = do_title b s.
Proof.
  intros Hs b Hl. destruct Hs as [|c t Hc Ht]; [reflexivity|].
  destruct (ascii_case_map b Hc) as (d & E & _ & Esp & _ & _).
  rewrite do_title_cons, E. simpl.
  now rewrite Esp, (lstrip_fix_head Hl).
Qed.

Lemma lstrip_snoc_fix r c :
  r <> [] -> lstrip (r ++ [c]) = r ++ [c] -> lstrip r = r.
Proof.
  destruct r as [|x r']; [congruence|]. intros _ H.
  apply lstrip_fix_head in H. simpl. now rewrite H.
Qed.

Lemma lstrip_fix_snoc r c :
  r <> [] -> lstrip r = r -> lstrip (r ++ [c]) = r ++ [c].
Proof.
  destruct r as [|x r']; [congruence|]. intros _ H.
  apply lstrip_fix_head in H. simpl. now rewrite H.
Qed.

(** The last character of the title-cased text has the class of the last
    character of the text. *)
Lemma do_title_ascii_rev_lstrip s :
  Forall is_ascii s -> forall b,
  lstrip (rev s) = rev s -> lstrip (rev (do_title b s)) = rev (do_title b s).
Proof.
  induction 1 as [|c t Hc Ht IH]; intros b Hl; [reflexivity|].
  destruct (ascii_case_map b Hc) as (d & E & _ & Esp & _ & _).
  rewrite do_title_cons, E. simpl app. simpl rev.
  destruct t as [|c' t'].
  - simpl. simpl in Hl. rewrite Esp. destruct (isspace c); auto. discriminate.
  - assert (Hne : rev (do_title (iscased c) (c' :: t')) <> []).
    { inversion Ht as [|? ? Hc' _]; subst.
      destruct (ascii_case_map (iscased c) Hc') as (d' & E' & _).
      rewrite do_title_cons, E'. simpl.
      intros H. apply (f_equal (@List.length _)) in H.
      rewrite length_app in H. simpl in H. lia. }
    assert (Hne' : rev (c' :: t') <> []).
    { simpl. intros H. apply (f_equal (@List.length _)) in H.
      rewrite length_app in H. simpl in H. lia. }
    simpl rev in Hl. change (rev t' ++ [c']) with (rev (c' :: t')) in Hl.
    apply lstrip_fix_snoc; [exact Hne|].
    apply IH. eapply lstrip_snoc_fix; eauto.
Qed.

Lemma title_ascii_stripped s :
  Forall is_ascii s -> stripped s -> stripped (title s).
Proof.
  intros Hs [H1 H2]. split.
  - now apply do_title_ascii_lstrip.
  - now apply do_title_ascii_rev_lstrip.
Qed.

Lemma lstrip_ascii s : Forall is_ascii s -> Forall is_ascii (lstrip s).
Proof.
  induction 1 as [|c t Hc Ht IH]; simpl; auto.
  destruct (isspace c); auto.
Qed.

Lemma strip_ascii s : Forall is_ascii s -> Forall is_ascii (strip s).
Proof.
  intros H. unfold strip, rstrip.
  apply Forall_rev, lstrip_ascii, Forall_rev, lstrip_ascii, H.
Qed.

Lemma normalize_ascii_idem s :
  Forall is_ascii s -> normalize (normalize s) = normalize s.
Proof.
  intros Hs. unfold normalize.
  pose proof (strip_ascii Hs) as Ha.
  rewrite (stripped_strip (title_ascii_stripped Ha (strip_stripped s))).
  apply do_title_ascii_idem, Ha.
Qed.

Lemma normalize_all_space s : forallb isspace s = true -> normalize s = [].
Proof. intros H. unfold normalize. now rewrite (strip_all_space _ H). Qed.

End StrFacts.

(** ** Dicts *)

Module DictFacts.
Section Facts.

Import Dict.
Variable V : Type.
Implicit Types (d : dict V) (k : str) (v : V).

Lemma get_In k v d : get k d = Some v -> In (k, v) d.
Proof.
  induction d as [|[k' v'] t IH]; simpl; [discriminate|].
  destruct (str_eq_dec k k'); intros H.
  - inversion H; subst. now left.
  - right. auto.
Qed.

Lemma get_None k d : get k d = None <-> ~ In k (keys d).
Proof.
  induction d as [|[k' v'] t IH]; simpl; [tauto|].
  destruct (str_eq_dec k k'); split; intros H.
  - discriminate.
  - exfalso. apply H. left. congruence.
  - intros [E|Hin]; [congruence|]. now apply IH.
  - apply IH. tauto.
Qed.

Lemma get_Some_keys k v d : get k d = Some v -> In k (keys d).
Proof. intros H. apply get_In in H. apply (in_map fst) in H. exact H. Qed.

Lemma In_get k v d : wf d -> In (k, v) d -> get k d = Some v.
Proof.
  unfold wf. induction d as [|[k' v'] t IH]; simpl; [tauto|].
  intros Hnd [E|Hin]; inversion Hnd; subst.
  - inversion E; subst. destruct (str_eq_dec k k); congruence.
  - destruct (str_eq_dec k k'); [subst|auto].
    exfalso. apply (in_map fst) in Hin. auto.
Qed.

Lemma keys_In k d : In k (keys d) -> exists v, get k d = Some v.
Proof.
  intros H. destruct (get k d) eqn:E; [eauto|].
  apply get_None in E. contradiction.
Qed.

Lemma get_set_same k v d : get k (set k v d) = Some v.
Proof.
  induction d as [|[k' v'] t IH]; simpl.
  - destruct (str_eq_dec k k); congruence.
  - destruct (str_eq_dec k k') as [E|N]; simpl.
    + destruct (str_eq_dec k k'); congruence.
    + destruct (str_eq_dec k k'); congruence.
Qed.

Lemma get_set_other k k0 v d : k0 <> k -> get k0 (set k v d) = get k0 d.
Proof.
  intros N. induction d as [|[k' v'] t IH]; simpl.
  - destruct (str_eq_dec k0 k); congruence.
  - destruct (str_eq_dec k k') as [E|N']; simpl.
    + subst. destruct (str_eq_dec k0 k'); congruence.
    + destruct (str_eq_dec k0 k'); congruence.
Qed.

Lemma keys_set_present k v d :
  In k (keys d) -> keys (set k v d) = keys d.
Proof.
  induction d as [|[k' v'] t IH]; simpl; [tauto|].
  destruct (str_eq_dec k k'); simpl; [reflexivity|].
  intros [E|H]; [congruence|]. now rewrite IH.
Qed.

Lemma set_absent k v d : ~ In k (keys d) -> set k v d = d ++ [(k, v)].
Proof.
  induction d as [|[k' v'] t IH]; simpl; [reflexivity|].
  intros H. destruct (str_eq_dec k k'); [exfalso; auto|].
  rewrite IH; tauto.
Qed.

Lemma wf_set k v d : wf d -> wf (set k v d).
Proof.
  unfold wf. intros H. destruct (in_dec str_eq_dec k (keys d)) as [Hin|Hnin].
  - now rewrite keys_set_present.
  - rewrite set_absent by exact Hnin. unfold keys. rewrite map_app. simpl.
    apply NoDup_incl_NoDup with (l := k :: map fst d).
    + constructor; assumption.
    + rewrite length_app. simpl. lia.
    + intros x Hx. apply in_or_app. simpl in *. tauto.
Qed.

Lemma keys_remove_incl k d : incl (keys (remove k d)) (keys d).
Proof.
  induction d as [|[k' v'] t IH]; simpl; [easy|].
  destruct (str_eq_dec k k'); simpl.
  - apply incl_tl, incl_refl.
  - intros x [E|H]; [now left | right; now apply IH].
Qed.

Lemma wf_remove k d : wf d -> wf (remove k d).
Proof.
  unfold wf. induction d as [|[k' v'] t IH]; simpl; [easy|].
  intros H. inversion H; subst.
  destruct (str_eq_dec k k'); simpl; [assumption|].
  constructor; [|auto]. intros Hin. now apply keys_remove_incl in Hin.
Qed.

Lemma get_remove_same k d : wf d -> get k (remove k d) = None.
Proof.
  unfold wf. induction d as [|[k' v'] t IH]; simpl; [easy|].
  intros H. inversion H; subst.
  destruct (str_eq_dec k k') as [E|N]; simpl.
  - subst. now apply get_None.
  - destruct (str_eq_dec k k'); [congruence | auto].
Qed.

Lemma get_remove_other k k0 d : k0 <> k -> get k0 (remove k d) = get k0 d.
Proof.
  intros N. induction d as [|[k' v'] t IH]; simpl; [reflexivity|].
  destruct (str_eq_dec k k') as [E|N']; simpl.
  - subst. destruct (str_eq_dec k0 k'); congruence.
  - destruct (str_eq_dec k0 k'); congruence.
Qed.

Lemma length_remove k d :
  In k (keys d) -> S (List.length (remove k d)) = List.length d.
Proof.
  induction d as [|[k' v'] t IH]; simpl; [tauto|].
  destruct (str_eq_dec k k'); simpl; [reflexivity|].
  intros [E|H]; [congruence|]. now rewrite IH.
Qed.

(** The values of a dict after [d[k] = v] are [v] and values of [d]. *)
Lemma In_set k0 v0 k v d :
  In (k0, v0) (set k v d) -> (k0 = k /\ v0 = v) \/ In (k0, v0) d.
Proof.
  induction d as [|[k' v'] t IH]; simpl.
  - intros [E|[]]. inversion E. auto.
  - destruct (str_eq_dec k k'); simpl.
    + intros [E|H]; [inversion E; subst; auto | auto].
    + intros [E|H]; [auto | destruct (IH H); auto].
Qed.

Lemma In_remove k0 v0 k d : In (k0, v0) (remove k d) -> In (k0, v0) d.
Proof.
  induction d as [|[k' v'] t IH]; simpl; [tauto|].
  destruct (str_eq_dec k k'); simpl; [auto|].
  intros [E|H]; auto.
Qed.

End Facts.
End DictFacts.

(** ** The page functions *)

Import Str.

Section Operations.

Import DictFacts.

Lemma set_not_nil (k : str) (v : item) (d : inventory) : Dict.set k v d <> [].
Proof. destruct d as [|[k' v'] t]; simpl; [|destruct (str_eq_dec k k')]; discriminate. Qed.

Lemma set_set (k : str) (v w : item) (d : inventory) :
  Dict.set k w (Dict.set k v d) = Dict.set k w d.
Proof.
  induction d as [|[k' v'] t IH]; simpl.
  - destruct (str_eq_dec k k); congruence.
  - destruct (str_eq_dec k k') as [E|N]; simpl.
    + destruct (str_eq_dec k k'); congruence.
    + destruct (str_eq_dec k k'); congruence.
Qed.

Lemma check_stock_balance_one (inv : inventory) (name : str) (it : item) :
  name <> [] -> Dict.get name inv = Some it ->
  check_stock_balance inv (Some name) = Ok (alert_for name it).
Proof.
  intros Hn Hg. unfold check_stock_balance.
  destruct inv as [|kv t]; [discriminate|].
  destruct name as [|c n]; [congruence|].
  unfold Dict.getitem. rewrite Hg. reflexivity.
Qed.

Lemma check_stock_balance_all (inv : inventory) :
  check_stock_balance inv None = Ok (alert_all inv).
Proof.
  unfold check_stock_balance, alert_all. destruct inv as [|kv t]; [reflexivity|].
  destruct (map fst _); reflexivity.
Qed.

Lemma check_stock_balance_blank (inv : inventory) :
  check_stock_balance inv (Some []) = Ok (alert_all inv).
Proof.
  unfold check_stock_balance, alert_all. destruct inv as [|kv t]; [reflexivity|].
  destruct (map fst _); reflexivity.
Qed.

Lemma add_item_blank (inv : inventory) (f : add_form) :
  normalize (add_name f) = [] ->
  add_item inv f true = Ok (inv, [Error_enter_item_name]).
Proof. intros H. unfold add_item. now rewrite H. Qed.

Lemma add_item_new (inv : inventory) (f : add_form) :
  normalize (add_name f) <> [] ->
  Dict.get (normalize (add_name f)) inv = None ->
  add_item inv f true =
    Ok (inv ++ [(normalize (add_name f), item_of_add f)],
        Success_added (normalize (add_name f))
          :: alert_for (normalize (add_name f)) (item_of_add f)).
Proof.
  intros Hn Hg. unfold add_item.
  destruct (normalize (add_name f)) as [|c n] eqn:E; [congruence|].
  simpl truthy. cbv iota. rewrite Hg.
  fold (item_of_add f).
  rewrite (@check_stock_balance_one _ (c :: n) (item_of_add f));
    [| discriminate | apply get_set_same].
  cbn [bind]. rewrite set_absent; [reflexivity|].
  now apply get_None.
Qed.

Lemma add_item_existing (inv : inventory) (f : add_form) (it : item) :
  normalize (add_name f) <> [] ->
  Dict.get (normalize (add_name f)) inv = Some it ->
  add_item inv f true =
    Ok (Dict.set (normalize (add_name f)) (add_quantity_to it (add_quantity f)) inv,
        Success_quantity_updated (normalize (add_name f))
          :: alert_for (normalize (add_name f))
               (add_quantity_to it (add_quantity f))).
Proof.
  intros Hn Hg. unfold add_item.
  destruct (normalize (add_name f)) as [|c n] eqn:E; [congruence|].
  simpl truthy. cbv iota. rewrite Hg.
  rewrite (@check_stock_balance_one _ (c :: n) (add_quantity_to it (add_quantity f)));
    [reflexivity | discriminate | apply get_set_same].
Qed.

Lemma index_CATEGORIES c : exists i, index c CATEGORIES = Ok i.
Proof. destruct c; eexists; reflexivity. Qed.

(** With the empty string selected the update page shows nothing. *)
Lemma update_item_blank_selection (inv : inventory) (f : update_form)
      (submitted : bool) :
  inv <> [] -> update_item inv [] f submitted = Ok (inv, []).
Proof. intros Hne. destruct inv as [|kv t]; [congruence | reflexivity]. Qed.

(** A selection that is not a key raises [KeyError] at line 174. *)
Lemma update_item_missing (inv : inventory) (selected : str)
      (f : update_form) (submitted : bool) :
  inv <> [] -> selected <> [] -> Dict.get selected inv = None ->
  update_item inv selected f submitted = Raise (KeyError selected).
Proof.
  intros Hi Hs Hg. unfold update_item, Dict.getitem. rewrite Hg.
  destruct inv as [|kv t]; [congruence|].
  destruct selected as [|c sel]; [congruence|]. reflexivity.
Qed.

(** Showing the update form without submitting it changes nothing. *)
Lemma update_item_not_submitted (inv : inventory) (selected : str)
      (f : update_form) (it : item) :
  selected <> [] -> Dict.get selected inv = Some it ->
  update_item inv selected f false = Ok (inv, []).
Proof.
  intros Hs Hg. unfold update_item.
  destruct (Dict.keys inv) eqn:Ek.
  { destruct inv; [discriminate | discriminate]. }
  destruct selected as [|c sel]; [congruence|]. simpl truthy. cbv iota.
  unfold Dict.getitem at 1. rewrite Hg. cbn [bind].
  destruct (index_CATEGORIES (category it)) as [i Hi]. rewrite Hi. reflexivity.
Qed.

(** Submitting the update form for a selected item whose name is kept. *)
Lemma update_item_same_name (inv : inventory) (selected : str)
      (f : update_form) (it : item) :
  selected <> [] -> Dict.get selected inv = Some it ->
  normalize (new_name_text f) = selected ->
  update_item inv selected f true =
    Ok (Dict.set selected (item_of_update f) inv,
        Success_updated selected :: alert_for selected (item_of_update f)).
Proof.
  intros Hs Hg Hn. unfold update_item.
  destruct (Dict.keys inv) eqn:Ek.
  { destruct inv; [discriminate | discriminate]. }
  destruct selected as [|c sel]; [congruence|]. simpl truthy. cbv iota.
  unfold Dict.getitem at 1. rewrite Hg. cbn [bind].
  destruct (index_CATEGORIES (category it)) as [i Hi]. rewrite Hi. cbn [bind].
  rewrite Hn. destruct (str_eq_dec (c :: sel) (c :: sel)); [|congruence].
  cbn [bind fst snd]. fold (item_of_update f).
  rewrite (@check_stock_balance_one _ (c :: sel) (item_of_update f));
    [reflexivity | discriminate | apply get_set_same].
Qed.

(** Submitting the update form with another name: the record leaves the
    selected key and the new key holds the values of the form.  A blank
    new name makes [check_stock_balance] look at the whole inventory. *)
Lemma update_item_rename (inv : inventory) (selected : str)
      (f : update_form) (it : item) :
  selected <> [] -> Dict.get selected inv = Some it ->
  normalize (new_name_text f) <> selected ->
  update_item inv selected f true =
    let new_name := normalize (new_name_text f) in
    let inv' := Dict.set new_name (item_of_update f) (Dict.remove selected inv) in
    Ok (inv',
        Success_updated new_name ::
          match new_name with
          | [] => alert_all inv'
          | _ :: _ => alert_for new_name (item_of_update f)
          end).
Proof.
  intros Hs Hg Hn. unfold update_item.
  destruct (Dict.keys inv) eqn:Ek.
  { destruct inv; [discriminate | discriminate]. }
  destruct selected as [|c sel]; [congruence|]. simpl truthy. cbv iota.
  unfold Dict.getitem at 1. rewrite Hg. cbn [bind].
  destruct (index_CATEGORIES (category it)) as [i Hi]. rewrite Hi. cbn [bind].
  destruct (str_eq_dec (normalize (new_name_text f)) (c :: sel)); [congruence|].
  unfold Dict.pop. rewrite Hg. cbn [bind fst snd].
  fold (item_of_update f). rewrite set_set.
  destruct (normalize (new_name_text f)) as [|c' n'] eqn:En.
  - rewrite check_stock_balance_blank. reflexivity.
  - rewrite (@check_stock_balance_one _ (c' :: n') (item_of_update f));
      [reflexivity | discriminate | apply get_set_same].
Qed.

(** What a rename does to the inventory. *)
Lemma update_item_rename_effect :
  forall (inv : inventory) (selected : str) (f : update_form) (it : item),
    Dict.wf inv ->
    truthy selected = true ->
    Dict.get selected inv = Some it ->
    normalize (new_name_text f) <> selected ->
    let new_name := normalize (new_name_text f) in
    exists inv' alert,
      update_item inv selected f true = Ok (inv', Success_updated new_name :: alert)
      /\ Dict.get new_name inv' =
           Some {| category := new_category f;
                   publisher := new_publisher f;
                   price := new_price f;
                   quantity := new_quantity f;
                   min_stock := new_min_stock f |}
      /\ Dict.get selected inv' = None
      /\ (forall k, k <> selected -> k <> new_name ->
                    Dict.get k inv' = Dict.get k inv)
      /\ (Dict.contains new_name inv = true ->
          S (List.length inv') = List.length inv)
      /\ (Dict.contains new_name inv = false ->
          List.length inv' = List.length inv)
      /\ ~ In Error_enter_item_name alert
      /\ Dict.wf inv'.
Proof.
  intros inv selected f it Hwf Ht Hg Hne new_name.
  assert (Hs : selected <> []) by (intros E; rewrite E in Ht; discriminate).
  rewrite (@update_item_rename inv selected f it Hs Hg Hne). cbv zeta. fold new_name.
  do 2 eexists. split; [reflexivity|].
  assert (Hin : In selected (Dict.keys inv)) by (eapply DictFacts.get_Some_keys; eauto).
  pose proof (DictFacts.length_remove _ _ Hin) as Hlen.
  split; [apply DictFacts.get_set_same|].
  split.
  { rewrite DictFacts.get_set_other by (intros E; apply Hne; symmetry; exact E).
    now apply DictFacts.get_remove_same. }
  split.
  { intros k Hk1 Hk2. rewrite DictFacts.get_set_other by assumption.
    now apply DictFacts.get_remove_other. }
  split.
  { unfold Dict.contains. intros Hc.
    assert (Hin' : In new_name (Dict.keys (Dict.remove selected inv))).
    { destruct (Dict.get new_name inv) eqn:E; [|discriminate].
      apply DictFacts.get_Some_keys with (v := i).
      rewrite DictFacts.get_remove_other; auto. }
    assert (El : List.length (Dict.set new_name (item_of_update f) (Dict.remove selected inv))
                 = List.length (Dict.remove selected inv)).
    { rewrite <- (length_map fst), <- (length_map fst (Dict.remove selected inv)).
      f_equal. now apply DictFacts.keys_set_present. }
    rewrite El. exact Hlen. }
  split.
  { unfold Dict.contains. intros Hc.
    assert (Hnin : ~ In new_name (Dict.keys (Dict.remove selected inv))).
    { intros Hin'. apply DictFacts.keys_remove_incl in Hin'.
      apply DictFacts.keys_In in Hin' as [v Hv]. rewrite Hv in Hc. discriminate. }
    rewrite DictFacts.set_absent by exact Hnin.
    rewrite length_app. simpl. lia. }
  split.
  { destruct new_name.
    - unfold alert_all. destruct (map fst _); simpl; [tauto|].
      intros [E|[E|Hin']]; try discriminate.
      apply in_map_iff in Hin' as (? & E & _). discriminate.
    - unfold alert_for. destruct (_ <? _)%Z; simpl; [|tauto].
      intros [E|[]]. discriminate. }
  apply DictFacts.wf_set, DictFacts.wf_remove, Hwf.
Qed.

End Operations.

(* ================================================================== *)
(** * The scenario of the specification *)

(** Pencil is added with quantity 10 and minimum 5: a record is created
    and no alert is raised.  It is added again with quantity 3: the
    quantity becomes 13 and nothing else changes.  It is updated to
    quantity 2: the alert names "Pencil", 2 and 5. *)
Example scenario :
  let pencil q :=
    [(lit "Pencil", {| category := Writing_Instruments; quantity := q;
                       publisher := lit "Abc"; price := 2.5%float;
                       min_stock := 5 |})] in
  add_item [] pencil_form true
    = Ok (pencil 10%Z, [Success_added (lit "Pencil")])
  /\ add_item (pencil 10%Z) pencil_again_form true
    = Ok (pencil 13%Z, [Success_quantity_updated (lit "Pencil")])
  /\ update_item (pencil 13%Z) (lit "Pencil") pencil_update_form true
    = Ok (pencil 2%Z, [Success_updated (lit "Pencil");
                       Warning_low_stock_alert (lit "Pencil") 2 5])
  /\ search_item (pencil 2%Z) (lit "pencil")
    = [Success_item_found;
       Markdown_details (lit "Pencil")
         {| category := Writing_Instruments; quantity := 2;
            publisher := lit "Abc"; price := 2.5%float; min_stock := 5 |};
       Error_low_stock 2 5].
Proof. repeat split; reflexivity. Qed.

(* ================================================================== *)
(** * The add form *)

(** C1 (amended).  Submitting the add form with a name that is not blank
    after normalization: if the inventory has no record under the
    normalized name, exactly one record is appended under it, holding the
    category, price, quantity and minimum of the form and the brand of the
    form trimmed and title-cased, and the page reports that the item was
    added; if a record exists under that key, its quantity grows by the
    quantity of the form, its category, brand, price and minimum stay as
    they were, every other key keeps its record, and the page reports that
    the quantity was updated. *)
Theorem add_item_creates_or_increments :
  forall (inv : inventory) (f : add_form),
    truthy (normalize (add_name f)) = true ->
    let name := normalize (add_name f) in
    (Dict.get name inv = None ->
     exists alert,
       add_item inv f true =
         Ok (inv ++ [(name, {| category := add_category f;
                               quantity := add_quantity f;
                               publisher := normalize (add_publisher f);
                               price := add_price f;
                               min_stock := add_min_stock f |})],
             Success_added name :: alert))
    /\
    (forall it, Dict.get name inv = Some it ->
     exists inv' alert,
       add_item inv f true = Ok (inv', Success_quantity_updated name :: alert)
       /\ Dict.get name inv' =
            Some {| category := category it;
                    quantity := quantity it + add_quantity f;
                    publisher := publisher it;
                    price := price it;
                    min_stock := min_stock it |}
       /\ Dict.keys inv' = Dict.keys inv
       /\ forall k, k <> name -> Dict.get k inv' = Dict.get k inv).
Proof.
  intros inv f Ht name.
  assert (Hn : name <> []) by (intros E; unfold name in E; rewrite E in Ht; discriminate).
  split.
  - intros Hg. eexists. unfold name. now rewrite add_item_new.
  - intros it Hg. do 2 eexists. unfold name in *.
    rewrite (add_item_existing _ _ Hn Hg). split; [reflexivity|].
    split; [apply DictFacts.get_set_same|].
    split.
    + apply DictFacts.keys_set_present. eapply DictFacts.get_Some_keys; eauto.
    + intros k Hk. now apply DictFacts.get_set_other.
Qed.

Lemma add_item_creates_or_increments_witness :
  truthy (normalize (add_name pencil_form)) = true
  /\ Dict.get (normalize (add_name pencil_form)) [] = @None item
  /\ exists alert,
       add_item [] pencil_form true =
         Ok ([(lit "Pencil", {| category := Writing_Instruments;
                                quantity := 10;
                                publisher := lit "Abc";
                                price := 2.5%float;
                                min_stock := 5 |})],
             Success_added (lit "Pencil") :: alert).
Proof.
  split; [reflexivity|]. split; [reflexivity|].
  apply (proj1 (add_item_creates_or_increments [] pencil_form eq_refl)).
  reflexivity.
Defined.

(** The brand is not stored as typed: the form with the brand text "abc"
    creates a record whose brand is "Abc". *)
Lemma add_item_brand_not_as_typed :
  exists inv' out it,
    add_item [] pencil_form true = Ok (inv', out)
    /\ Dict.get (lit "Pencil") inv' = Some it
    /\ add_publisher pencil_form = lit "abc"
    /\ publisher it = lit "Abc"
    /\ publisher it <> add_publisher pencil_form.
Proof.
  do 3 eexists. split; [reflexivity|]. split; [reflexivity|].
  split; [reflexivity|]. split; [reflexivity|].
  simpl. discriminate.
Qed.

(* ================================================================== *)
(** * The update form *)

(** C2.  For an inventory with a record under the selected key, submitting
    the update form with a new name whose normalization differs from the
    selected key moves the record: the new key holds the values of the
    form, the selected key is gone, every other key keeps its record, no
    exception is raised and the page reports success.  When the new key was
    already in use, the record it held is replaced and the inventory is one
    record shorter; otherwise its length is unchanged.  (The form is only
    shown for a selection that is not the empty string, line 173.) *)
Theorem update_item_rename_moves_record :
  forall (inv : inventory) (selected : str) (f : update_form) (it : item),
    Dict.wf inv ->
    truthy selected = true ->
    Dict.get selected inv = Some it ->
    normalize (new_name_text f) <> selected ->
    let new_name := normalize (new_name_text f) in
    exists inv' alert,
      update_item inv selected f true = Ok (inv', Success_updated new_name :: alert)
      /\ Dict.get new_name inv' =
           Some {| category := new_category f;
                   publisher := new_publisher f;
                   price := new_price f;
                   quantity := new_quantity f;
                   min_stock := new_min_stock f |}
      /\ Dict.get selected inv' = None
      /\ (forall k, k <> selected -> k <> new_name ->
                    Dict.get k inv' = Dict.get k inv)
      /\ (Dict.contains new_name inv = true ->
          S (List.length inv') = List.length inv)
      /\ (Dict.contains new_name inv = false ->
          List.length inv' = List.length inv)
      /\ ~ In Error_enter_item_name alert
      /\ Dict.wf inv'.
Proof. exact update_item_rename_effect. Qed.

Lemma update_item_rename_moves_record_witness :
  Dict.wf pen_and_ink
  /\ truthy (lit "Pen") = true
  /\ Dict.get (lit "Pen") pen_and_ink = Some pen_item
  /\ normalize (new_name_text rename_to_ink) <> lit "Pen"
  /\ exists inv',
       update_item pen_and_ink (lit "Pen") rename_to_ink true
         = Ok (inv', [Success_updated (lit "Ink")])
       /\ Dict.get (lit "Pen") inv' = None
       /\ List.length inv' = 1%nat.
Proof.
  assert (Hwf : Dict.wf pen_and_ink).
  { unfold Dict.wf. simpl. repeat constructor; simpl; intuition discriminate. }
  assert (Hne : normalize (new_name_text rename_to_ink) <> lit "Pen").
  { vm_compute. discriminate. }
  split; [exact Hwf|]. split; [reflexivity|]. split; [reflexivity|].
  split; [exact Hne|].
  destruct (@update_item_rename_moves_record pen_and_ink (lit "Pen")
              rename_to_ink pen_item Hwf eq_refl eq_refl Hne)
    as (inv' & alert & Hrun & _ & Hgone & _ & Hlen & _).
  exists inv'. vm_compute in Hrun. injection Hrun as <- <-.
  split; [reflexivity|]. split; [reflexivity|]. reflexivity.
Defined.

(** C9.  The update form does not validate the name.  For an inventory
    with a record under the selected key, submitting the form with a name
    that is empty or all whitespace succeeds: the record moves to the
    empty key with the values of the form, the selected key is gone, the other
    keys keep their records and no "enter an item name" error is shown;
    the add form with the same name text is refused with that error and
    leaves the inventory alone.  (The update form is only shown, and can
    only be submitted, for a selection that is not the empty string, line
    173.) *)
Theorem update_item_accepts_blank_name :
  forall (inv : inventory) (selected : str) (f : update_form) (it : item),
    Dict.wf inv ->
    truthy selected = true ->
    Dict.get selected inv = Some it ->
    forallb isspace (new_name_text f) = true ->
    (exists inv' alert,
       update_item inv selected f true = Ok (inv', Success_updated [] :: alert)
       /\ Dict.get [] inv' =
            Some {| category := new_category f;
                    publisher := new_publisher f;
                    price := new_price f;
                    quantity := new_quantity f;
                    min_stock := new_min_stock f |}
       /\ Dict.get selected inv' = None
       /\ (forall k, k <> selected -> k <> [] -> Dict.get k inv' = Dict.get k inv)
       /\ ~ In Error_enter_item_name alert)
    /\ (forall fa : add_form,
          add_name fa = new_name_text f ->
          add_item inv fa true = Ok (inv, [Error_enter_item_name])).
Proof.
  intros inv selected f it Hwf Ht Hg Hsp.
  pose proof (StrFacts.normalize_all_space _ Hsp) as Hn.
  split.
  - assert (Hne : normalize (new_name_text f) <> selected).
    { rewrite Hn. intros E. rewrite <- E in Ht. discriminate. }
    destruct (@update_item_rename_effect inv selected f it Hwf Ht Hg Hne)
      as (inv' & alert & Hrun & Hnew & Hold & Hother & _ & _ & Herr & _).
    rewrite Hn in *. exists inv', alert. repeat split; auto.
  - intros fa Hfa. apply add_item_blank. now rewrite Hfa.
Qed.

Lemma update_item_accepts_blank_name_witness :
  Dict.wf pen_and_ink
  /\ truthy (lit "Pen") = true
  /\ Dict.get (lit "Pen") pen_and_ink = Some pen_item
  /\ forallb isspace (new_name_text blank_name_form) = true
  /\ exists inv' alert,
       update_item pen_and_ink (lit "Pen") blank_name_form true
         = Ok (inv', Success_updated [] :: alert)
       /\ Dict.get (lit "Pen") inv' = None.
Proof.
  assert (Hwf : Dict.wf pen_and_ink).
  { unfold Dict.wf. simpl. repeat constructor; simpl; intuition discriminate. }
  split; [exact Hwf|]. split; [reflexivity|]. split; [reflexivity|].
  split; [reflexivity|].
  destruct (proj1 (@update_item_accepts_blank_name pen_and_ink (lit "Pen")
                     blank_name_form pen_item Hwf eq_refl eq_refl eq_refl))
    as (inv' & alert & Hrun & _ & Hgone & _).
  exists inv', alert. split; assumption.
Defined.

(* ================================================================== *)
(** * Low stock *)

Section LowStock.

Lemma alert_all_names (inv : inventory) (name : str) :
  In (Sidebar_write name) (alert_all inv) <->
  exists it, In (name, it) inv /\ (quantity it < min_stock it)%Z.
Proof.
  unfold alert_all.
  set (names := map fst (filter _ inv)).
  assert (H : In name names <->
              exists it, In (name, it) inv /\ (quantity it < min_stock it)%Z).
  { unfold names. rewrite in_map_iff. split.
    - intros ([k it] & E & Hin). simpl in E. subst k.
      apply filter_In in Hin as [Hin Hlow]. simpl in Hlow.
      exists it. split; [assumption | now apply Z.ltb_lt].
    - intros (it & Hin & Hlow). exists (name, it). split; [reflexivity|].
      apply filter_In. split; [assumption | now apply Z.ltb_lt]. }
  rewrite <- H. destruct names as [|n ns]; simpl; [tauto|].
  split.
  - intros [E|[E|Hin]]; try discriminate.
    + inversion E. now left.
    + apply in_map_iff in Hin as (x & E & Hx). inversion E; subst. now right.
  - intros [E|Hin]; right; [left; now subst|].
    right. now apply in_map.
Qed.

Lemma status_of_row (kv : str * item) :
  Status (row_of kv) =
    if (quantity (snd kv) <? min_stock (snd kv))%Z
    then status_low_stock else status_adequate.
Proof.
  unfold row_of. simpl.
  destruct (Z.geb_spec (quantity (snd kv)) (min_stock (snd kv)));
    destruct (Z.ltb_spec (quantity (snd kv)) (min_stock (snd kv)));
    try reflexivity; lia.
Qed.

Lemma status_strings_differ : status_low_stock <> status_adequate.
Proof. discriminate. Qed.

End LowStock.

(** C3.  One predicate throughout: for every record, the Status column of
    the table reads "Low Stock" exactly when [quantity < min_stock] and
    "Adequate" otherwise, in particular when the two are equal; the search
    page shows its low-stock message, and [check_stock_balance] raises its
    alert for the item (alone or in the list for the whole inventory),
    under the same condition. *)
Theorem low_stock_iff_quantity_below_min_stock :
  forall (name : str) (it : item),
    (Status (row_of (name, it)) = status_low_stock
       <-> (quantity it < min_stock it)%Z)
    /\ (Status (row_of (name, it)) = status_adequate
       <-> (min_stock it <= quantity it)%Z)
    /\ (quantity it = min_stock it ->
        Status (row_of (name, it)) = status_adequate)
    /\ (forall (inv : inventory) (text : str),
          truthy (normalize text) = true ->
          Dict.get (normalize text) inv = Some it ->
          (In (Error_low_stock (quantity it) (min_stock it)) (search_item inv text)
             <-> (quantity it < min_stock it)%Z)
          /\ (In (Success_stock_adequate (quantity it)) (search_item inv text)
             <-> (min_stock it <= quantity it)%Z))
    /\ (forall inv : inventory,
          truthy name = true ->
          Dict.get name inv = Some it ->
          (check_stock_balance inv (Some name) =
             Ok [Warning_low_stock_alert name (quantity it) (min_stock it)]
             <-> (quantity it < min_stock it)%Z)
          /\ (check_stock_balance inv (Some name) = Ok []
             <-> (min_stock it <= quantity it)%Z))
    /\ (forall inv : inventory,
          Dict.wf inv ->
          In (name, it) inv ->
          exists out,
            check_stock_balance inv None = Ok out
            /\ (In (Sidebar_write name) out <-> (quantity it < min_stock it)%Z)).
Proof.
  intros name it.
  pose proof (status_of_row (name, it)) as Hst. cbn [snd] in Hst.
  pose proof status_strings_differ as Hd.
  split; [|split; [|split; [|split; [|split]]]].
  - rewrite Hst. destruct (Z.ltb_spec (quantity it) (min_stock it)); split;
      intros; try reflexivity; try lia; try congruence.
  - rewrite Hst. destruct (Z.ltb_spec (quantity it) (min_stock it)); split;
      intros; try reflexivity; try lia; try congruence.
  - intros E. rewrite Hst.
    destruct (Z.ltb_spec (quantity it) (min_stock it)); [lia | reflexivity].
  - intros inv text Ht Hg. unfold search_item. rewrite Ht, Hg.
    destruct (Z.ltb_spec (quantity it) (min_stock it)); simpl; split; split;
      intros H'; try lia; try tauto;
      repeat (destruct H' as [H'|H']; try discriminate; try contradiction).
  - intros inv Ht Hg.
    assert (Hn : name <> []) by (intros E; rewrite E in Ht; discriminate).
    rewrite (@check_stock_balance_one inv name it Hn Hg). unfold alert_for.
    destruct (Z.ltb_spec (quantity it) (min_stock it)); split; split;
      intros H'; try reflexivity; try lia; try discriminate.
  - intros inv Hwf Hin. exists (alert_all inv).
    split; [apply check_stock_balance_all|].
    rewrite alert_all_names. split.
    + intros (it' & Hin' & Hlow).
      apply DictFacts.In_get in Hin, Hin'; try assumption. congruence.
    + intros Hlow. eauto.
Qed.

(* ================================================================== *)
(** * The table and its summary *)

Section Table.

Lemma red_circle_marks_low (kv : str * item) :
  str_contains [red_circle] (Status (row_of kv)) = is_low kv.
Proof.
  rewrite status_of_row. unfold is_low.
  destruct (_ <? _)%Z; reflexivity.
Qed.

Lemma green_circle_marks_adequate (kv : str * item) :
  str_contains [green_circle] (Status (row_of kv)) = negb (is_low kv).
Proof.
  rewrite status_of_row. unfold is_low.
  destruct (_ <? _)%Z; reflexivity.
Qed.

Lemma low_stock_filter (inv : inventory) :
  apply_filters (map row_of inv) All_categories Low_Stock
  = map row_of (filter is_low inv).
Proof.
  unfold apply_filters. rewrite filter_map_swap. f_equal.
  apply filter_ext. intros kv. apply red_circle_marks_low.
Qed.

(** Sums of an integer column. *)
Lemma int_sum_from (l : list Z) (a : Z) :
  fold_left Z.add l a = (a + int_sum l)%Z.
Proof.
  unfold int_sum. revert a. induction l as [|x t IH]; intros a; simpl.
  - lia.
  - rewrite IH, (IH x). lia.
Qed.

Lemma int_sum_cons (x : Z) (l : list Z) : int_sum (x :: l) = (x + int_sum l)%Z.
Proof. unfold int_sum at 1. simpl. apply int_sum_from. Qed.

Lemma int_sum_app (l1 l2 : list Z) :
  int_sum (l1 ++ l2) = (int_sum l1 + int_sum l2)%Z.
Proof.
  induction l1 as [|x t IH]; simpl app.
  - unfold int_sum at 2. simpl. lia.
  - rewrite !int_sum_cons, IH. lia.
Qed.

Lemma int_sum_perm (l1 l2 : list Z) :
  Permutation l1 l2 -> int_sum l1 = int_sum l2.
Proof.
  induction 1; rewrite ?int_sum_cons; lia.
Qed.

Lemma low_stock_items_app (a b : list row) :
  low_stock_items (a ++ b) = (low_stock_items a + low_stock_items b)%nat.
Proof. unfold low_stock_items. now rewrite filter_app, length_app. Qed.

Lemma low_stock_items_perm (a b : list row) :
  Permutation a b -> low_stock_items a = low_stock_items b.
Proof.
  unfold low_stock_items. induction 1; simpl.
  - reflexivity.
  - destruct (str_eq_dec (Status x) status_low_stock); simpl; congruence.
  - destruct (str_eq_dec (Status x) status_low_stock);
      destruct (str_eq_dec (Status y) status_low_stock); reflexivity.
  - congruence.
Qed.

(** The two counts of a table cut into parts. *)
Lemma counts_of_concat (parts : list (list row)) :
  total_items (concat parts) = list_sum (map total_items parts)
  /\ low_stock_items (concat parts) = list_sum (map low_stock_items parts).
Proof.
  induction parts as [|p ps (IH1 & IH2)]; simpl.
  - split; reflexivity.
  - unfold total_items in *.
    rewrite length_app, low_stock_items_app, IH1, IH2. split; reflexivity.
Qed.

Lemma counts_additive (df : list row) (parts : list (list row)) :
  Permutation df (concat parts) ->
  total_items df = list_sum (map total_items parts)
  /\ low_stock_items df = list_sum (map low_stock_items parts).
Proof.
  intros HP. destruct (counts_of_concat parts) as (H1 & H2).
  rewrite <- H1, <- H2. split.
  - unfold total_items. now apply Permutation_length.
  - now apply low_stock_items_perm.
Qed.

Lemma of_category_cons (c : category_label) (r : row) (df : list row) :
  of_category c (r :: df) =
    if category_eq_dec (Category r) c then r :: of_category c df
    else of_category c df.
Proof.
  unfold of_category, apply_filters. simpl.
  destruct (category_eq_dec (Category r) c); reflexivity.
Qed.

Lemma category_parts_cons (cs : list category_label) (r : row) (df : list row) :
  NoDup cs -> In (Category r) cs ->
  Permutation (r :: concat (map (fun c => of_category c df) cs))
              (concat (map (fun c => of_category c (r :: df)) cs)).
Proof.
  induction cs as [|c cs' IH]; intros Hnd Hin; [destruct Hin|].
  inversion Hnd as [|? ? Hc Hnd']; subst. simpl.
  rewrite of_category_cons. destruct (category_eq_dec (Category r) c) as [E|N].
  - subst c. simpl. constructor. apply Permutation_app_head.
    assert (Hsame : map (fun c => of_category c (r :: df)) cs'
                    = map (fun c => of_category c df) cs').
    { apply map_ext_in. intros c Hc'. rewrite of_category_cons.
      destruct (category_eq_dec (Category r) c); [congruence | reflexivity]. }
    now rewrite Hsame.
  - destruct Hin as [E|Hin]; [congruence|].
    eapply Permutation_trans; [apply Permutation_middle|].
    apply Permutation_app_head. now apply IH.
Qed.

Lemma CATEGORIES_complete (c : category_label) : In c CATEGORIES.
Proof. destruct c; simpl; tauto. Qed.

Lemma CATEGORIES_NoDup : NoDup CATEGORIES.
Proof. repeat constructor; simpl; intuition discriminate. Qed.

(** The tables of the eight categories partition the whole table. *)
Lemma category_filters_partition (df : list row) :
  Permutation df (concat (map (fun c => of_category c df) CATEGORIES)).
Proof.
  induction df as [|r t IH].
  - reflexivity.
  - eapply Permutation_trans;
      [ apply perm_skip, IH
      | apply category_parts_cons;
        [apply CATEGORIES_NoDup | apply CATEGORIES_complete] ].
Qed.

(** The number of rows and the number of low rows of the whole table are
    the sums of those of the tables of the categories. *)
Lemma counts_additive_over_categories (df : list row) :
  let parts := map (fun c => of_category c df) CATEGORIES in
  total_items df = list_sum (map total_items parts)
  /\ low_stock_items df = list_sum (map low_stock_items parts).
Proof. apply counts_additive, category_filters_partition. Qed.

(** The view page either raises or shows what it computed. *)
Lemma view_inventory_shows (inv : inventory) (fc : category_choice)
      (fs : status_choice) (out : list output) :
  view_inventory inv fc fs = Ok out ->
  (inv = [] /\ out = [Info_no_items_in_stock])
  \/ (inv <> []
      /\ (List.length (apply_filters (map row_of inv) fc fs) = 0%nat
          \/ List.length (apply_filters (map row_of inv) fc fs) = 7%nat)
      /\ exists v,
          total_value (apply_filters (map row_of inv) fc fs) = Ok v
          /\ out = let d := infer_dtype (map (fun kv => quantity (snd kv)) inv) in
                   let df := apply_filters (map row_of inv) fc fs in
                   [ Dataframe df;
                     Metrics (total_items df) (total_quantity d df)
                             v (low_stock_items df) ]).
Proof.
  unfold view_inventory. destruct inv as [|kv t] eqn:Ei.
  - intros H. injection H as <-. now left.
  - rewrite <- Ei. unfold st_dataframe. cbv zeta.
    destruct (total_value (apply_filters (map row_of inv) fc fs)) as [v|e].
    + destruct (List.length (apply_filters (map row_of inv) fc fs) =? 0)%nat eqn:E0;
        [| destruct (List.length (apply_filters (map row_of inv) fc fs) =? 7)%nat eqn:E7];
        cbn [orb bind]; intros H; try discriminate; injection H as <-; right;
        (split; [rewrite Ei; discriminate|]);
        (split; [|exists v; split; reflexivity]).
      * left. now apply Nat.eqb_eq.
      * right. now apply Nat.eqb_eq.
    + destruct (_ || _)%bool; cbn [bind]; discriminate.
Qed.

Lemma length_filter_split (A : Type) (f g : A -> bool) (l : list A) :
  (forall x, In x l -> f x = negb (g x)) ->
  List.length l = (List.length (filter f l) + List.length (filter g l))%nat.
Proof.
  induction l as [|x t IH]; intros H; [reflexivity|].
  simpl. rewrite (H x (or_introl eq_refl)).
  rewrite (IH (fun y Hy => H y (or_intror Hy))).
  destruct (g x); simpl; lia.
Qed.

(** No inventory can be viewed both whole and split over two categories
    that are present: the three tables would each need seven rows. *)
Lemma category_split_not_shown (inv : inventory) (a b : category_label)
      (whole part_a part_b : list output) :
  a <> b ->
  (exists name it, In (name, it) inv /\ category it = a) ->
  (exists name it, In (name, it) inv /\ category it = b) ->
  (forall name it, In (name, it) inv -> category it = a \/ category it = b) ->
  view_inventory inv All_categories All_statuses = Ok whole ->
  view_inventory inv (Only a) All_statuses = Ok part_a ->
  view_inventory inv (Only b) All_statuses = Ok part_b ->
  False.
Proof.
  intros Hab (na & ia & Hina & Ha) (nb & ib & Hinb & Hb) Hcover Hw Hpa Hpb.
  apply view_inventory_shows in Hw, Hpa, Hpb.
  assert (Hne : inv <> []) by (intros E; rewrite E in Hina; contradiction).
  destruct Hw as [[E _]|(_ & Hw & _)]; [contradiction|].
  destruct Hpa as [[E _]|(_ & Hpa & _)]; [contradiction|].
  destruct Hpb as [[E _]|(_ & Hpb & _)]; [contradiction|].
  change (apply_filters (map row_of inv) All_categories All_statuses)
    with (map row_of inv) in Hw.
  change (apply_filters (map row_of inv) (Only a) All_statuses)
    with (filter (fun r => if category_eq_dec (Category r) a then true else false)
                 (map row_of inv)) in Hpa.
  change (apply_filters (map row_of inv) (Only b) All_statuses)
    with (filter (fun r => if category_eq_dec (Category r) b then true else false)
                 (map row_of inv)) in Hpb.
  assert (Hsplit := @length_filter_split row
            (fun r => if category_eq_dec (Category r) a then true else false)
            (fun r => if category_eq_dec (Category r) b then true else false)
            (map row_of inv)).
  cbv beta in Hsplit. rewrite Hsplit in Hw.
  - assert (Hpos : forall (c : category_label) name it,
               In (name, it) inv -> category it = c ->
               List.length (filter (fun r => if category_eq_dec (Category r) c
                                             then true else false)
                                   (map row_of inv)) <> 0%nat).
    { intros c name it Hin Hc E. apply length_zero_iff_nil in E.
      assert (Hr : In (row_of (name, it))
                      (filter (fun r => if category_eq_dec (Category r) c
                                        then true else false) (map row_of inv))).
      { apply filter_In. split; [now apply in_map|]. simpl.
        destruct (category_eq_dec (category it) c); congruence. }
      rewrite E in Hr. contradiction. }
    pose proof (Hpos a na ia Hina Ha). pose proof (Hpos b nb ib Hinb Hb). lia.
  - intros r Hr. apply in_map_iff in Hr as ([name it] & <- & Hin). simpl.
    destruct (Hcover name it Hin) as [E|E]; rewrite E;
      destruct (category_eq_dec a a), (category_eq_dec b b),
               (category_eq_dec a b), (category_eq_dec b a);
      try reflexivity; congruence.
Qed.

End Table.

(** C4.  With the category filter on "All" and the status filter on "Low
    Stock", the filtered table holds exactly the items with
    [quantity < min_stock], in the order of the inventory: no other item is
    in it and no such item is missing; and whenever the view page shows a
    table under these filters, it is this table. *)
Theorem view_low_stock_filter_exact :
  forall inv : inventory,
    let df := apply_filters (map row_of inv) All_categories Low_Stock in
    df = map row_of (filter (fun kv => (quantity (snd kv) <? min_stock (snd kv))%Z) inv)
    /\ (forall r, In r df <->
                  exists name it, In (name, it) inv
                                  /\ (quantity it < min_stock it)%Z
                                  /\ r = row_of (name, it))
    /\ (forall out shown,
          view_inventory inv All_categories Low_Stock = Ok out ->
          In (Dataframe shown) out -> shown = df).
Proof.
  intros inv df. unfold df. split; [|split].
  - rewrite low_stock_filter. reflexivity.
  - rewrite low_stock_filter. fold is_low.
    intros r. rewrite in_map_iff. split.
    + intros ([name it] & E & Hin). apply filter_In in Hin as [Hin Hlow].
      exists name, it. unfold is_low in Hlow. simpl in Hlow.
      apply Z.ltb_lt in Hlow. auto.
    + intros (name & it & Hin & Hlow & E). exists (name, it).
      split; [auto|]. apply filter_In. split; [assumption|].
      unfold is_low. simpl. now apply Z.ltb_lt.
  - intros out shown Hrun Hin. apply view_inventory_shows in Hrun.
    destruct Hrun as [[_ ->]|(_ & _ & v & _ & ->)].
    + destruct Hin as [E|[]]. discriminate.
    + destruct Hin as [E|[E|[]]]; [now injection E | discriminate].
Qed.


(* ================================================================== *)
(** * Low-stock alerts *)

Section Alerts.

(** After the add form is accepted the alert for the affected item is
    shown exactly when its quantity is below its minimum. *)
Lemma add_item_alert (inv inv' : inventory) (f : add_form) (out : list output) :
  truthy (normalize (add_name f)) = true ->
  add_item inv f true = Ok (inv', out) ->
  exists it,
    Dict.get (normalize (add_name f)) inv' = Some it
    /\ (In (Warning_low_stock_alert (normalize (add_name f))
              (quantity it) (min_stock it)) out
        <-> (quantity it < min_stock it)%Z).
Proof.
  intros Ht Hrun.
  assert (Hn : normalize (add_name f) <> [])
    by (intros E; rewrite E in Ht; discriminate).
  assert (Hal : forall it said,
             In (Warning_low_stock_alert (normalize (add_name f))
                   (quantity it) (min_stock it))
                (said :: alert_for (normalize (add_name f)) it)
             -> said = Success_added (normalize (add_name f))
                \/ said = Success_quantity_updated (normalize (add_name f))
             -> (quantity it < min_stock it)%Z).
  { intros it said [E|Hin] Hsaid; [destruct Hsaid; congruence|].
    unfold alert_for in Hin.
    destruct (Z.ltb_spec (quantity it) (min_stock it)); [assumption|destruct Hin]. }
  assert (Hla : forall it said,
             (quantity it < min_stock it)%Z ->
             In (Warning_low_stock_alert (normalize (add_name f))
                   (quantity it) (min_stock it))
                (said :: alert_for (normalize (add_name f)) it)).
  { intros it said Hlow. right. unfold alert_for.
    apply Z.ltb_lt in Hlow. rewrite Hlow. now left. }
  destruct (Dict.get (normalize (add_name f)) inv) as [it|] eqn:Hg.
  - rewrite (add_item_existing _ _ Hn Hg) in Hrun. injection Hrun as <- <-.
    eexists. split; [apply DictFacts.get_set_same|].
    split; [intros H; eapply Hal; eauto | apply Hla].
  - rewrite (add_item_new _ _ Hn Hg) in Hrun. injection Hrun as <- <-.
    eexists. split.
    + rewrite <- DictFacts.set_absent by (now apply DictFacts.get_None).
      apply DictFacts.get_set_same.
    + split; [intros H; eapply Hal; eauto | apply Hla].
Qed.

(** After the update form is submitted with a name that is not blank, the
    alert for the affected item is shown exactly when its quantity is below
    its minimum. *)
Lemma update_item_alert (inv inv' : inventory) (selected : str)
      (f : update_form) (it : item) (out : list output) :
  truthy selected = true ->
  Dict.get selected inv = Some it ->
  truthy (normalize (new_name_text f)) = true ->
  update_item inv selected f true = Ok (inv', out) ->
  In (Warning_low_stock_alert (normalize (new_name_text f))
        (new_quantity f) (new_min_stock f)) out
  <-> (new_quantity f < new_min_stock f)%Z.
Proof.
  intros Ht Hg Hnt Hrun.
  assert (Hs : selected <> []) by (intros E; rewrite E in Ht; discriminate).
  assert (Hout : out = Success_updated (normalize (new_name_text f))
                   :: alert_for (normalize (new_name_text f)) (item_of_update f)).
  { destruct (str_eq_dec (normalize (new_name_text f)) selected) as [E|N].
    - rewrite (@update_item_same_name inv selected f it Hs Hg E) in Hrun.
      injection Hrun as <- <-. now rewrite E.
    - rewrite (@update_item_rename inv selected f it Hs Hg N) in Hrun. cbv zeta in Hrun.
      injection Hrun as <- <-.
      destruct (normalize (new_name_text f)); [discriminate | reflexivity]. }
  rewrite Hout. unfold alert_for. simpl quantity. simpl min_stock.
  destruct (Z.ltb_spec (new_quantity f) (new_min_stock f)) as [Hlt|Hge];
    simpl; split; intros Hx; try lia; auto.
  destruct Hx as [E|[]]. discriminate.
Qed.

(** The sidebar, when it is drawn: a summary line, then the alert for
    the whole inventory. *)
Lemma sidebar_runs (inv : inventory) (side : list output) :
  sidebar inv = Ok side ->
  exists head, side = head :: alert_all inv
               /\ (forall name, head <> Sidebar_write name)
               /\ head <> Error_enter_item_name
               /\ head <> Error_item_not_found.
Proof.
  unfold sidebar. destruct inv as [|kv t].
  - intros H. injection H as <-. exists Sidebar_info_no_items.
    repeat split; intros; discriminate.
  - destruct (item_values (kv :: t)) as [values|e]; [|discriminate].
    cbn [bind]. rewrite check_stock_balance_all. cbn [bind].
    intros H. injection H as <-. eexists.
    split; [reflexivity|]. repeat split; intros; discriminate.
Qed.

Lemma sidebar_lists_low_items (inv : inventory) (side : list output) :
  sidebar inv = Ok side ->
  forall name,
    In (Sidebar_write name) side
    <-> exists it, In (name, it) inv /\ (quantity it < min_stock it)%Z.
Proof.
  intros Hside name. destruct (sidebar_runs _ Hside) as (head & -> & Hhead & _).
  rewrite <- alert_all_names. split.
  - intros [E|Hin]; [exfalso; eapply Hhead; eauto | assumption].
  - intros Hin. now right.
Qed.

(** On the view page the sidebar is drawn first; whenever the page is
    shown to the end, the names listed are exactly the items that are
    below their minimum. *)
Lemma main_view_lists_low_items (inv inv' : inventory)
      (fc : category_choice) (fs : status_choice) (out : list output) :
  main inv (View_Inventory fc fs) = Ok (inv', out) ->
  inv' = inv
  /\ forall name,
       In (Sidebar_write name) out
       <-> exists it, In (name, it) inv /\ (quantity it < min_stock it)%Z.
Proof.
  unfold main. destruct (sidebar inv) as [side|e] eqn:Hside; [|discriminate].
  cbn [bind].
  destruct (view_inventory inv fc fs) as [table|e] eqn:Hview; [|discriminate].
  cbn [bind fst snd]. intros H. injection H as <- <-. split; [reflexivity|].
  intros name. rewrite <- (sidebar_lists_low_items _ Hside). split.
  - intros Hin. apply in_app_or in Hin as [Hin|Hin]; [assumption|].
    apply view_inventory_shows in Hview.
    destruct Hview as [[_ ->]|(_ & _ & v & _ & ->)]; simpl in Hin;
      repeat (destruct Hin as [Hin|Hin]; try discriminate; try contradiction).
  - intros Hin. apply in_or_app. now left.
Qed.

End Alerts.

(** C6, at the input where the alert is missing.  The inventory holds one
    item, "Pen".  The update form is submitted with a blank name, quantity
    2 and minimum 5.  The record moves to the empty key, below its minimum,
    and [check_stock_balance], called with the empty name, takes the branch
    for the whole inventory: the sidebar shows the heading and the name,
    and no warning with the quantity and the minimum is shown. *)
Theorem update_blank_name_shows_no_item_alert :
  update_item [(lit "Pen", pen_item)] (lit "Pen") blank_name_form true
  = Ok ([([], {| category := Writing_Instruments; quantity := 2;
                 publisher := lit "abc"; price := 2.5%float; min_stock := 5 |})],
        [Success_updated []; Sidebar_error_low_stock_alert; Sidebar_write []]).
Proof. reflexivity. Qed.

(* ================================================================== *)
(** * Normalization of names *)

(** C7 (amended).  Normalization (trim, then title-case) is idempotent on
    ASCII text; the texts "  pen ", "Pen" and "PEN" all normalize to "Pen";
    and the add, search and update pages normalize the name the same way:
    for texts [a], [b], [c] with the same non-blank normalization, after
    the add form is accepted with name [a], searching for [b] finds the
    record and updating it with name [c] rewrites it under the same key. *)
Theorem normalize_idempotent_on_ascii :
  forall s : str,
    Forall is_ascii s ->
    normalize (normalize s) = normalize s
    /\ (normalize (lit "  pen ") = lit "Pen"
        /\ normalize (lit "Pen") = lit "Pen"
        /\ normalize (lit "PEN") = lit "Pen")
    /\ (forall (inv : inventory) (fa : add_form) (b : str) (fu : update_form),
          truthy (normalize (add_name fa)) = true ->
          normalize b = normalize (add_name fa) ->
          normalize (new_name_text fu) = normalize (add_name fa) ->
          let key := normalize (add_name fa) in
          exists inv1 out1 it,
            add_item inv fa true = Ok (inv1, out1)
            /\ Dict.get key inv1 = Some it
            /\ (exists status,
                  search_item inv1 b =
                    [Success_item_found; Markdown_details key it; status])
            /\ exists inv2 out2,
                 update_item inv1 key fu true = Ok (inv2, out2)
                 /\ Dict.keys inv2 = Dict.keys inv1
                 /\ Dict.get key inv2 =
                      Some {| category := new_category fu;
                              publisher := new_publisher fu;
                              price := new_price fu;
                              quantity := new_quantity fu;
                              min_stock := new_min_stock fu |}).
Proof.
  intros s Hs. split; [now apply StrFacts.normalize_ascii_idem|].
  split; [repeat split; reflexivity|].
  intros inv fa b fu Ht Hb Hu key. subst key.
  set (key := normalize (add_name fa)) in *.
  assert (Hn : key <> []) by (intros E; rewrite E in Ht; discriminate).
  assert (Hadd : exists inv1 out1 it,
             add_item inv fa true = Ok (inv1, out1) /\ Dict.get key inv1 = Some it).
  { destruct (Dict.get key inv) as [it|] eqn:Hg.
    - rewrite (@add_item_existing inv fa it Hn Hg). do 3 eexists.
      split; [reflexivity | apply DictFacts.get_set_same].
    - rewrite (@add_item_new inv fa Hn Hg). do 3 eexists. split; [reflexivity|].
      rewrite <- DictFacts.set_absent by (now apply DictFacts.get_None).
      apply DictFacts.get_set_same. }
  destruct Hadd as (inv1 & out1 & it & Hrun & Hg1).
  exists inv1, out1, it. split; [assumption|]. split; [assumption|]. split.
  - unfold search_item. rewrite Hb, Ht, Hg1. eexists. reflexivity.
  - rewrite (@update_item_same_name inv1 key fu it Hn Hg1 Hu). do 2 eexists.
    split; [reflexivity|]. split.
    + apply DictFacts.keys_set_present. eapply DictFacts.get_Some_keys; eauto.
    + apply DictFacts.get_set_same.
Qed.

Lemma normalize_idempotent_on_ascii_witness :
  Forall is_ascii (lit "  pen ")
  /\ normalize (normalize (lit "  pen ")) = normalize (lit "  pen ").
Proof.
  assert (H : Forall is_ascii (lit "  pen ")).
  { repeat constructor. }
  split; [exact H|].
  exact (proj1 (@normalize_idempotent_on_ascii (lit "  pen ") H)).
Defined.

(** Outside ASCII normalization is not idempotent: the text U+01F0 "a"
    normalizes to "J" U+030C "a", and that text normalizes to
    "J" U+030C "A". *)
Lemma normalize_not_idempotent :
  normalize [0x1F0; 0x61]%N = [0x4A; 0x30C; 0x61]%N
  /\ normalize (normalize [0x1F0; 0x61]%N) = [0x4A; 0x30C; 0x41]%N
  /\ normalize (normalize [0x1F0; 0x61]%N) <> normalize [0x1F0; 0x61]%N.
Proof.
  split; [reflexivity|]. split; [reflexivity|].
  vm_compute. discriminate.
Qed.

(* ================================================================== *)
(** * Failures *)

Section Failures.

Lemma quiet_not_In (out : list output) :
  quiet out -> ~ In Error_enter_item_name out /\ ~ In Error_item_not_found out.
Proof.
  intros H. split; intros Hin;
    apply (proj1 (Forall_forall _ _) H) in Hin; discriminate.
Qed.

Lemma quiet_alert_for (name : str) (it : item) : quiet (alert_for name it).
Proof. unfold alert_for. destruct (_ <? _)%Z; repeat constructor. Qed.

Lemma quiet_alert_all (inv : inventory) : quiet (alert_all inv).
Proof.
  unfold alert_all. destruct (map fst _) as [|n ns]; [constructor|].
  constructor; [reflexivity|].
  apply Forall_forall. intros o Hin.
  apply in_map_iff in Hin as (x & <- & _). reflexivity.
Qed.

Lemma quiet_view (inv : inventory) (fc : category_choice)
      (fs : status_choice) (out : list output) :
  view_inventory inv fc fs = Ok out -> quiet out.
Proof.
  intros H. apply view_inventory_shows in H.
  destruct H as [[_ ->]|(_ & _ & v & _ & ->)]; repeat constructor.
Qed.

Lemma quiet_sidebar (inv : inventory) (side : list output) :
  sidebar inv = Ok side -> quiet side.
Proof.
  intros Hside. destruct (sidebar_runs _ Hside) as (head & -> & _ & H1 & H2).
  constructor; [|apply quiet_alert_all].
  destruct head; try reflexivity; congruence.
Qed.

(** The add page: accepted without a failure message, or refused with
    the blank-name message and the inventory as it was. *)
Lemma add_item_runs (inv : inventory) (f : add_form) (submitted : bool) :
  exists inv' out,
    add_item inv f submitted = Ok (inv', out)
    /\ ((submitted = true /\ truthy (normalize (add_name f)) = false
         /\ inv' = inv /\ out = [Error_enter_item_name])
        \/ ((submitted = false \/ truthy (normalize (add_name f)) = true)
            /\ quiet out)).
Proof.
  destruct submitted.
  2:{ do 2 eexists. split; [reflexivity|]. right. split; [auto | constructor]. }
  destruct (truthy (normalize (add_name f))) eqn:Ht.
  - assert (Hn : normalize (add_name f) <> [])
      by (intros E; rewrite E in Ht; discriminate).
    destruct (Dict.get (normalize (add_name f)) inv) as [it|] eqn:Hg.
    + rewrite (@add_item_existing inv f it Hn Hg). do 2 eexists.
      split; [reflexivity|]. right. split; [auto|].
      constructor; [reflexivity | apply quiet_alert_for].
    + rewrite (@add_item_new inv f Hn Hg). do 2 eexists.
      split; [reflexivity|]. right. split; [auto|].
      constructor; [reflexivity | apply quiet_alert_for].
  - assert (Hn : normalize (add_name f) = [])
      by (destruct (normalize (add_name f)); [reflexivity | discriminate]).
    rewrite (add_item_blank _ _ Hn). do 2 eexists.
    split; [reflexivity|]. left. auto.
Qed.

(** The search page. *)
Lemma search_item_cases (inv : inventory) (text : str) :
  (truthy (normalize text) = true /\ Dict.get (normalize text) inv = None
   /\ search_item inv text = [Error_item_not_found])
  \/ ((truthy (normalize text) = false
       \/ exists it, Dict.get (normalize text) inv = Some it)
      /\ quiet (search_item inv text)).
Proof.
  unfold search_item. destruct (truthy (normalize text)) eqn:Ht.
  - destruct (Dict.get (normalize text) inv) as [it|] eqn:Hg.
    + right. split; [eauto|].
      destruct (_ <? _)%Z; repeat constructor.
    + left. auto.
  - right. split; [auto | constructor].
Qed.

(** The update page, for a selection the selectbox can deliver: it never
    raises and never shows a failure message. *)
Lemma update_item_runs (inv : inventory) (selected : str)
      (f : update_form) (submitted : bool) :
  (inv <> [] -> In selected (Dict.keys inv)) ->
  exists inv' out,
    update_item inv selected f submitted = Ok (inv', out) /\ quiet out.
Proof.
  intros Hsel. destruct inv as [|kv t] eqn:Einv.
  { do 2 eexists. split; [reflexivity | repeat constructor]. }
  rewrite <- Einv in *. assert (Hne : inv <> []) by (rewrite Einv; discriminate).
  destruct (DictFacts.keys_In _ _ (Hsel Hne)) as [it Hg].
  destruct selected as [|c sel] eqn:Es.
  { unfold update_item. rewrite Einv. simpl.
    do 2 eexists. split; [reflexivity | constructor]. }
  rewrite <- Es in *.
  assert (Hs : selected <> []) by (rewrite Es; discriminate).
  destruct submitted.
  - destruct (str_eq_dec (normalize (new_name_text f)) selected) as [E|N].
    + rewrite (@update_item_same_name inv selected f it Hs Hg E).
      do 2 eexists. split; [reflexivity|].
      constructor; [reflexivity | apply quiet_alert_for].
    + rewrite (@update_item_rename inv selected f it Hs Hg N). cbv zeta.
      do 2 eexists. split; [reflexivity|].
      constructor; [reflexivity|].
      destruct (normalize (new_name_text f));
        [apply quiet_alert_all | apply quiet_alert_for].
  - rewrite (@update_item_not_submitted inv selected f it Hs Hg).
    do 2 eexists. split; [reflexivity | constructor].
Qed.

End Failures.

(** The failure messages of a run that is shown to the end.  The
    blank-name message is shown exactly when the add form is submitted
    with a name that is blank after normalization, and the not-found
    message exactly when the search page is given a non-blank name that is
    not a key of the inventory; the inventory is unchanged whenever one of
    them is shown. *)
Lemma failure_messages (inv inv' : inventory) (p : page) (out : list output) :
  main inv p = Ok (inv', out) ->
  (In Error_enter_item_name out <->
   exists f, p = Add_New_Item f true
             /\ truthy (normalize (add_name f)) = false)
  /\ (In Error_item_not_found out <->
      exists text, p = Search_Item text
                   /\ truthy (normalize text) = true
                   /\ Dict.get (normalize text) inv = None)
  /\ (In Error_enter_item_name out \/ In Error_item_not_found out ->
      inv' = inv).
Proof.
  unfold main. destruct (sidebar inv) as [side|e] eqn:Hside; [|discriminate].
  cbn [bind]. pose proof (quiet_sidebar _ Hside) as Hq.
  destruct (quiet_not_In Hq) as [Hs1 Hs2].
  destruct p as [f submitted | fc fs | text | selected f submitted].
  - destruct (add_item_runs inv f submitted)
      as (inv1 & out1 & Hrun & [(-> & Ht & -> & ->) | (Hc & Hqo)]);
      rewrite Hrun; cbn [bind fst snd]; intros H; injection H as <- <-.
    + split; [|split].
      * split; [eauto|]. intros _. apply in_or_app. right. now left.
      * split.
        -- intros Hin. apply in_app_or in Hin as [Hin|[Hin|[]]];
             [contradiction | discriminate].
        -- intros (t & E & _). discriminate.
      * reflexivity.
    + destruct (quiet_not_In Hqo) as [Ho1 Ho2]. split; [|split].
      * split.
        -- intros Hin. apply in_app_or in Hin as [Hin|Hin]; contradiction.
        -- intros (f' & E & Ht). injection E as E1 E2. subst f' submitted.
           destruct Hc as [Hc|Hc]; congruence.
      * split.
        -- intros Hin. apply in_app_or in Hin as [Hin|Hin]; contradiction.
        -- intros (t & E & _). discriminate.
      * intros [Hin|Hin]; apply in_app_or in Hin as [Hin|Hin]; contradiction.
  - destruct (view_inventory inv fc fs) as [table|e] eqn:Hview; [|discriminate].
    cbn [bind fst snd]. intros H. injection H as <- <-.
    destruct (quiet_not_In (quiet_view _ _ _ Hview)) as [Ho1 Ho2].
    split; [|split].
    + split.
      * intros Hin. apply in_app_or in Hin as [Hin|Hin]; contradiction.
      * intros (f' & E & _). discriminate.
    + split.
      * intros Hin. apply in_app_or in Hin as [Hin|Hin]; contradiction.
      * intros (t & E & _). discriminate.
    + reflexivity.
  - cbn [bind fst snd]. intros H. injection H as <- <-.
    destruct (search_item_cases inv text) as [(Ht & Hg & Hout) | (Hc & Hqo)].
    + rewrite Hout. split; [|split].
      * split.
        -- intros Hin. apply in_app_or in Hin as [Hin|[Hin|[]]];
             [contradiction | discriminate].
        -- intros (f' & E & _). discriminate.
      * split; [eauto|]. intros _. apply in_or_app. right. now left.
      * reflexivity.
    + destruct (quiet_not_In Hqo) as [Ho1 Ho2]. split; [|split].
      * split.
        -- intros Hin. apply in_app_or in Hin as [Hin|Hin]; contradiction.
        -- intros (f' & E & _). discriminate.
      * split.
        -- intros Hin. apply in_app_or in Hin as [Hin|Hin]; contradiction.
        -- intros (t & E & Ht & Hg). injection E as <-.
           destruct Hc as [Hc|[it Hc]]; congruence.
      * reflexivity.
  - destruct (update_form_defaults inv selected) as [[]|e]; [|discriminate].
    cbn [bind].
    destruct (update_item inv selected f submitted) as [[inv1 out1]|e] eqn:Hrun;
      [|discriminate].
    cbn [bind fst snd]. intros H. injection H as <- <-.
    assert (Hqo : quiet out1).
    { destruct inv as [|kv t] eqn:Ei.
      - unfold update_item in Hrun. simpl in Hrun. injection Hrun as <- <-.
        repeat constructor.
      - rewrite <- Ei in *. destruct selected as [|c sel] eqn:Es.
        + rewrite update_item_blank_selection in Hrun by (rewrite Ei; discriminate).
          injection Hrun as <- <-. constructor.
        + rewrite <- Es in *.
          destruct (Dict.get selected inv) as [it|] eqn:Hg.
          * assert (Hsel : inv <> [] -> In selected (Dict.keys inv))
              by (intros _; eapply DictFacts.get_Some_keys; eauto).
            destruct (@update_item_runs inv selected f submitted Hsel)
              as (i & o & Hrun' & Hqo).
            rewrite Hrun' in Hrun. now injection Hrun as <- <-.
          * rewrite (@update_item_missing inv selected f submitted) in Hrun;
              [discriminate | rewrite Ei; discriminate
               | rewrite Es; discriminate | assumption]. }
    destruct (quiet_not_In Hqo) as [Ho1 Ho2]. split; [|split].
    + split.
      * intros Hin. apply in_app_or in Hin as [Hin|Hin]; contradiction.
      * intros (f' & E & _). discriminate.
    + split.
      * intros Hin. apply in_app_or in Hin as [Hin|Hin]; contradiction.
      * intros (t & E & _). discriminate.
    + intros [Hin|Hin]; apply in_app_or in Hin as [Hin|Hin]; contradiction.
Qed.

(** C8, at inputs where a page raises.  With one item in the inventory
    the view page raises [ValueError] when it draws the table (line 92):
    the style function returns one entry where seven are expected.  With a
    stored quantity of 2^53 the update page raises when it draws the
    quantity input (line 195).  Neither is one of the two reported
    failures, and the page is not shown to the end. *)
Theorem pages_raise :
  main [(lit "Pen", pen_item)] (View_Inventory All_categories All_statuses)
  = Raise ValueError
  /\ main worn_pen (Update_Item (lit "Pen") pencil_update_form false)
     = Raise StreamlitAPIException.
Proof. split; reflexivity. Qed.

(* ================================================================== *)
(** * Invariants of the inventory *)

Section Invariants.

(** What [main] does to the inventory is what the page does. *)
Lemma main_inventory (inv inv' : inventory) (p : page) (out : list output) :
  main inv p = Ok (inv', out) ->
  match p with
  | Add_New_Item f submitted =>
      exists shown, add_item inv f submitted = Ok (inv', shown)
  | View_Inventory _ _ => inv' = inv
  | Search_Item _ => inv' = inv
  | Update_Item selected f submitted =>
      exists shown, update_item inv selected f submitted = Ok (inv', shown)
  end.
Proof.
  unfold main. destruct (sidebar inv) as [side|e]; [|discriminate]. cbn [bind].
  destruct p as [f submitted | fc fs | text | selected f submitted].
  - destruct (add_item inv f submitted) as [[i o]|e]; [|discriminate].
    cbn [bind fst snd]. intros H. injection H as <- _. eauto.
  - destruct (view_inventory inv fc fs) as [table|e]; [|discriminate].
    cbn [bind fst snd]. intros H. now injection H as <- _.
  - cbn [bind fst snd]. intros H. now injection H as <- _.
  - destruct (update_form_defaults inv selected) as [[]|e]; [|discriminate].
    cbn [bind].
    destruct (update_item inv selected f submitted) as [[i o]|e]; [|discriminate].
    cbn [bind fst snd]. intros H. injection H as <- _. eauto.
Qed.

(** The inventory after the add page. *)
Lemma add_item_inventory (inv inv' : inventory) (f : add_form)
      (submitted : bool) (shown : list output) :
  add_item inv f submitted = Ok (inv', shown) ->
  inv' = inv
  \/ (Dict.get (normalize (add_name f)) inv = None
      /\ inv' = Dict.set (normalize (add_name f)) (item_of_add f) inv)
  \/ (exists it, Dict.get (normalize (add_name f)) inv = Some it
                 /\ inv' = Dict.set (normalize (add_name f))
                             (add_quantity_to it (add_quantity f)) inv).
Proof.
  destruct submitted; [|intros H; injection H as <- _; now left].
  destruct (truthy (normalize (add_name f))) eqn:Ht.
  - assert (Hn : normalize (add_name f) <> [])
      by (intros E; rewrite E in Ht; discriminate).
    destruct (Dict.get (normalize (add_name f)) inv) as [it|] eqn:Hg.
    + rewrite (@add_item_existing inv f it Hn Hg). intros H.
      injection H as <- _. right. right. eauto.
    + rewrite (@add_item_new inv f Hn Hg). intros H. injection H as <- _.
      right. left. split; [reflexivity|].
      symmetry. apply DictFacts.set_absent. now apply DictFacts.get_None.
  - unfold add_item. rewrite Ht. intros H. injection H as <- _. now left.
Qed.

(** The inventory after the update page. *)
Lemma update_item_inventory (inv inv' : inventory) (selected : str)
      (f : update_form) (submitted : bool) (shown : list output) :
  (inv <> [] -> In selected (Dict.keys inv)) ->
  update_item inv selected f submitted = Ok (inv', shown) ->
  inv' = inv
  \/ inv' = Dict.set selected (item_of_update f) inv
  \/ inv' = Dict.set (normalize (new_name_text f)) (item_of_update f)
              (Dict.remove selected inv).
Proof.
  intros Hsel. destruct inv as [|kv t] eqn:Einv.
  { intros H. injection H as <- _. now left. }
  rewrite <- Einv in *. assert (Hne : inv <> []) by (rewrite Einv; discriminate).
  destruct (DictFacts.keys_In _ _ (Hsel Hne)) as [it Hg].
  destruct selected as [|c sel] eqn:Es.
  { unfold update_item. rewrite Einv. simpl. intros H. injection H as <- _.
    now left. }
  rewrite <- Es in *.
  assert (Hs : selected <> []) by (rewrite Es; discriminate).
  destruct submitted.
  - destruct (str_eq_dec (normalize (new_name_text f)) selected) as [E|N].
    + rewrite (@update_item_same_name inv selected f it Hs Hg E).
      intros H. injection H as <- _. right. now left.
    + rewrite (@update_item_rename inv selected f it Hs Hg N). cbv zeta.
      intros H. injection H as <- _. right. now right.
  - rewrite (@update_item_not_submitted inv selected f it Hs Hg).
    intros H. injection H as <- _. now left.
Qed.

Lemma step_nonnegative (inv inv' : inventory) (p : page) (out : list output) :
  widgets_ok inv p -> main inv p = Ok (inv', out) ->
  (forall name it, In (name, it) inv -> nonnegative it) ->
  forall name it, In (name, it) inv' -> nonnegative it.
Proof.
  intros Hw Hrun Hinv name it Hin. apply main_inventory in Hrun.
  destruct p as [f submitted | fc fs | text | selected f submitted].
  - destruct Hrun as [shown Hrun]. destruct Hw as (Hq & Hp & Hm).
    apply add_item_inventory in Hrun as [->|[[_ ->]|(old & Hg & ->)]].
    + eauto.
    + apply DictFacts.In_set in Hin as [[_ ->]|Hin]; [|eauto].
      repeat split; assumption.
    + apply DictFacts.In_set in Hin as [[_ ->]|Hin]; [|eauto].
      apply DictFacts.get_In in Hg. destruct (Hinv _ _ Hg) as (H1 & H2 & H3).
      repeat split; simpl; try assumption; lia.
  - subst. eauto.
  - subst. eauto.
  - destruct Hrun as [shown Hrun]. destruct Hw as (Hsel & Hq & Hp & Hm).
    apply (@update_item_inventory inv inv' selected f submitted shown Hsel) in Hrun as [->|[->| ->]].
    + eauto.
    + apply DictFacts.In_set in Hin as [[_ ->]|Hin]; [|eauto].
      repeat split; assumption.
    + apply DictFacts.In_set in Hin as [[_ ->]|Hin].
      * repeat split; assumption.
      * apply DictFacts.In_remove in Hin. eauto.
Qed.

Lemma step_wf (inv inv' : inventory) (p : page) (out : list output) :
  widgets_ok inv p -> main inv p = Ok (inv', out) ->
  Dict.wf inv -> Dict.wf inv'.
Proof.
  intros Hw Hrun Hwf. apply main_inventory in Hrun.
  destruct p as [f submitted | fc fs | text | selected f submitted].
  - destruct Hrun as [shown Hrun].
    apply add_item_inventory in Hrun as [->|[[_ ->]|(old & Hg & ->)]];
      [assumption | now apply DictFacts.wf_set | now apply DictFacts.wf_set].
  - now subst.
  - now subst.
  - destruct Hrun as [shown Hrun]. destruct Hw as (Hsel & _).
    apply (@update_item_inventory inv inv' selected f submitted shown Hsel) in Hrun as [->|[->| ->]];
      [assumption | now apply DictFacts.wf_set |].
    now apply DictFacts.wf_set, DictFacts.wf_remove.
Qed.

(** Every inventory a session reaches is a dict: its keys are distinct. *)
Lemma reachable_wf (inv : inventory) : reachable inv -> Dict.wf inv.
Proof.
  induction 1 as [|inv p inv' out _ IH Hw Hrun].
  - constructor.
  - eapply step_wf; eauto.
Qed.

Lemma reachable_all_nonnegative (inv : inventory) :
  reachable inv -> forall name it, In (name, it) inv -> nonnegative it.
Proof.
  induction 1 as [|inv p inv' out _ IH Hw Hrun].
  - intros name it [].
  - eapply step_nonnegative; eauto.
Qed.

(** The inventories of the examples are reachable. *)
Lemma pen_and_ink_reachable : reachable pen_and_ink.
Proof.
  eapply reachable_step
    with (p := Add_New_Item (add_form_of "Ink" ink_item) true);
    [ eapply reachable_step
        with (p := Add_New_Item (add_form_of "Pen" pen_item) true);
      [ apply reachable_init | | reflexivity ]
    | | reflexivity ];
    simpl; repeat split; try reflexivity; intros H; discriminate H.
Qed.

Lemma dime_inventory_reachable : reachable dime_inventory.
Proof.
  pose (it n := snd (nth n dime_inventory ([], pen_item))).
  eapply reachable_step
    with (p := Add_New_Item (add_form_of "Notebook" (it 2%nat)) true);
    [ eapply reachable_step
        with (p := Add_New_Item (add_form_of "Paper" (it 1%nat)) true);
      [ eapply reachable_step
          with (p := Add_New_Item (add_form_of "Pen" (it 0%nat)) true);
        [ apply reachable_init | | reflexivity ]
      | | reflexivity ]
    | | reflexivity ];
    simpl; repeat split; try reflexivity; intros H; discriminate H.
Qed.

Lemma seven_items_reachable : reachable seven_items.
Proof.
  pose (it n := snd (nth n seven_items ([], pen_item))).
  assert (H0 : reachable (firstn 0 seven_items)) by apply reachable_init.
  assert (H1 : reachable (firstn 1 seven_items)).
  { eapply reachable_step
      with (p := Add_New_Item (add_form_of "Pen" (it 0%nat)) true);
      [ exact H0 | | reflexivity ];
      simpl; repeat split; try reflexivity; intros H; discriminate H. }
  assert (H2 : reachable (firstn 2 seven_items)).
  { eapply reachable_step
      with (p := Add_New_Item (add_form_of "Ink" (it 1%nat)) true);
      [ exact H1 | | reflexivity ];
      simpl; repeat split; try reflexivity; intros H; discriminate H. }
  assert (H3 : reachable (firstn 3 seven_items)).
  { eapply reachable_step
      with (p := Add_New_Item (add_form_of "Paper" (it 2%nat)) true);
      [ exact H2 | | reflexivity ];
      simpl; repeat split; try reflexivity; intros H; discriminate H. }
  assert (H4 : reachable (firstn 4 seven_items)).
  { eapply reachable_step
      with (p := Add_New_Item (add_form_of "Eraser" (it 3%nat)) true);
      [ exact H3 | | reflexivity ];
      simpl; repeat split; try reflexivity; intros H; discriminate H. }
  assert (H5 : reachable (firstn 5 seven_items)).
  { eapply reachable_step
      with (p := Add_New_Item (add_form_of "Ruler" (it 4%nat)) true);
      [ exact H4 | | reflexivity ];
      simpl; repeat split; try reflexivity; intros H; discriminate H. }
  assert (H6 : reachable (firstn 6 seven_items)).
  { eapply reachable_step
      with (p := Add_New_Item (add_form_of "Folder" (it 5%nat)) true);
      [ exact H5 | | reflexivity ];
      simpl; repeat split; try reflexivity; intros H; discriminate H. }
  eapply reachable_step
    with (p := Add_New_Item (add_form_of "Glue" (it 6%nat)) true);
    [ exact H6 | | reflexivity ];
    simpl; repeat split; try reflexivity; intros H; discriminate H.
Qed.

End Invariants.

(** C10.  With number inputs that deliver no negative value, every record
    of every inventory a session can reach has a quantity, a price and a
    minimum that are not negative.  In particular, accepting the add form
    for a key that exists leaves under that key the old quantity plus the
    quantity of the form, which is not negative. *)
Theorem reachable_nonnegative :
  forall inv : inventory,
    reachable inv ->
    (forall name it,
        In (name, it) inv ->
        (0 <= quantity it)%Z /\ PrimFloat.leb 0 (price it) = true
        /\ (0 <= min_stock it)%Z)
    /\ (forall (f : add_form) (it : item),
          widgets_ok inv (Add_New_Item f true) ->
          truthy (normalize (add_name f)) = true ->
          Dict.get (normalize (add_name f)) inv = Some it ->
          exists inv' out it',
            add_item inv f true = Ok (inv', out)
            /\ Dict.get (normalize (add_name f)) inv' = Some it'
            /\ quantity it' = (quantity it + add_quantity f)%Z
            /\ (0 <= quantity it')%Z).
Proof.
  intros inv Hr. pose proof (reachable_all_nonnegative Hr) as Hall.
  split; [exact Hall|].
  intros f it (Hq & _) Ht Hg.
  assert (Hn : normalize (add_name f) <> [])
    by (intros E; rewrite E in Ht; discriminate).
  rewrite (@add_item_existing inv f it Hn Hg). do 3 eexists.
  split; [reflexivity|]. split; [apply DictFacts.get_set_same|].
  split; [reflexivity|]. simpl.
  apply DictFacts.get_In in Hg. destruct (Hall _ _ Hg) as (H1 & _). lia.
Qed.

Lemma reachable_nonnegative_witness :
  reachable [(lit "Pencil", item_of_add pencil_form)]
  /\ forall name it,
       In (name, it) [(lit "Pencil", item_of_add pencil_form)] ->
       (0 <= quantity it)%Z /\ PrimFloat.leb 0 (price it) = true
       /\ (0 <= min_stock it)%Z.
Proof.
  assert (Hr : reachable [(lit "Pencil", item_of_add pencil_form)]).
  { apply reachable_step with (inv := []) (p := Add_New_Item pencil_form true)
                              (out := [Sidebar_info_no_items; Success_added (lit "Pencil")]).
    - apply reachable_init.
    - simpl. repeat split; try reflexivity; intros H; discriminate H.
    - reflexivity. }
  split; [exact Hr|].
  exact (proj1 (@reachable_nonnegative _ Hr)).
Defined.

(* ================================================================== *)
(** * Further properties *)

(** ** Blank names and names that differ in case or padding *)

Module StrMore.

Import Str StrFacts.
Local Open Scope N_scope.

Lemma lstrip_nil_iff (s : str) : lstrip s = [] <-> forallb isspace s = true.
Proof.
  split; [|apply lstrip_all_space].
  induction s as [|c t IH]; simpl; [reflexivity|].
  destruct (isspace c); simpl; [exact IH | discriminate].
Qed.

Lemma forallb_rev (f : char -> bool) (s : str) :
  forallb f (rev s) = forallb f s.
Proof.
  induction s as [|c t IH]; simpl; [reflexivity|].
  rewrite forallb_app, IH. simpl. rewrite andb_true_r. apply andb_comm.
Qed.

Lemma lstrip_app (a b : str) :
  lstrip (a ++ b) = if forallb isspace a then lstrip b else lstrip a ++ b.
Proof.
  induction a as [|c t IH]; simpl; [reflexivity|].
  destruct (isspace c); simpl; [exact IH | reflexivity].
Qed.

Lemma strip_nil_iff (s : str) : strip s = [] <-> forallb isspace s = true.
Proof.
  split; [|apply strip_all_space].
  unfold strip, rstrip. intros H.
  apply (f_equal (@rev char)) in H. rewrite rev_involutive in H. simpl in H.
  apply lstrip_nil_iff in H. rewrite forallb_rev in H.
  destruct (lstrip s) as [|c u] eqn:E; [now apply lstrip_nil_iff|].
  exfalso. simpl in H. apply andb_true_iff in H as [Hc _].
  assert (Hf : lstrip (c :: u) = c :: u) by (rewrite <- E; apply lstrip_idem).
  apply lstrip_fix_head in Hf. congruence.
Qed.

Lemma case_map_not_nil (b : bool) (c : char) : case_map b c <> [].
Proof.
  unfold case_map, tolower_full, totitle_full.
  destruct b; [destruct (is_ascii_upper c); discriminate|].
  destruct (is_ascii_lower c); [discriminate|].
  destruct (c =? 0x1F0); discriminate.
Qed.

Lemma do_title_nil_iff (b : bool) (s : str) : do_title b s = [] <-> s = [].
Proof.
  split; [|intros ->; reflexivity].
  destruct s as [|c t]; [reflexivity|]. rewrite do_title_cons. intros H.
  apply app_eq_nil in H as [H _]. now apply case_map_not_nil in H.
Qed.

(** A text normalizes to the empty string exactly when it is empty or
    all whitespace. *)
Lemma normalize_nil_iff (s : str) :
  normalize s = [] <-> forallb isspace s = true.
Proof.
  unfold normalize, title. rewrite do_title_nil_iff. apply strip_nil_iff.
Qed.

(** Whitespace around a text does not matter. *)
Lemma strip_padding (pre s post : str) :
  forallb isspace pre = true -> forallb isspace post = true ->
  strip (pre ++ s ++ post) = strip s.
Proof.
  intros Hpre Hpost. unfold strip. rewrite lstrip_app, Hpre, lstrip_app.
  destruct (forallb isspace s) eqn:Hs.
  - rewrite (lstrip_all_space _ Hpost), (lstrip_all_space _ Hs). reflexivity.
  - unfold rstrip. rewrite rev_app_distr, lstrip_app, forallb_rev, Hpost.
    reflexivity.
Qed.

Lemma ascii_fold_table :
  forallb (fun n => ascii_fold_ok (N.of_nat n)) (seq 0 128) = true.
Proof. vm_compute. reflexivity. Qed.

Lemma ascii_fold (c : char) :
  is_ascii c ->
  is_ascii (ascii_lower c)
  /\ isspace (ascii_lower c) = isspace c
  /\ iscased (ascii_lower c) = iscased c
  /\ forall b, case_map b (ascii_lower c) = case_map b c.
Proof.
  unfold is_ascii. intros Hc.
  assert (Hin : In (N.to_nat c) (seq 0 128)) by (apply in_seq; lia).
  pose proof (proj1 (forallb_forall _ _) ascii_fold_table _ Hin) as H.
  cbv beta in H. rewrite N2Nat.id in H. unfold ascii_fold_ok in H.
  repeat (apply andb_true_iff in H as [H ?]).
  apply N.ltb_lt in H.
  repeat match goal with
         | H : Bool.eqb _ _ = true |- _ => apply Bool.eqb_prop in H
         | H : (if ?d then true else false) = true |- _ =>
             destruct d; [|discriminate]
         end.
  repeat split; try assumption. intros []; assumption.
Qed.

Lemma casefold_ascii (s : str) : Forall is_ascii s -> Forall is_ascii (casefold s).
Proof.
  induction 1 as [|c t Hc Ht IH]; simpl; constructor; [|exact IH].
  now apply ascii_fold.
Qed.

Lemma do_title_casefold (s : str) :
  Forall is_ascii s -> forall b, do_title b (casefold s) = do_title b s.
Proof.
  induction 1 as [|c t Hc Ht IH]; intros b; [reflexivity|].
  destruct (ascii_fold Hc) as (_ & _ & Hcased & Hmap).
  simpl casefold. rewrite !do_title_cons, Hmap, Hcased. f_equal. apply IH.
Qed.

Lemma lstrip_casefold (s : str) :
  Forall is_ascii s -> lstrip (casefold s) = casefold (lstrip s).
Proof.
  induction 1 as [|c t Hc Ht IH]; [reflexivity|].
  destruct (ascii_fold Hc) as (_ & Hsp & _). simpl. rewrite Hsp.
  destruct (isspace c); [exact IH | reflexivity].
Qed.

Lemma strip_casefold (s : str) :
  Forall is_ascii s -> strip (casefold s) = casefold (strip s).
Proof.
  intros Hs. unfold strip, rstrip, casefold.
  fold (casefold s). rewrite (lstrip_casefold Hs). unfold casefold.
  rewrite <- map_rev. fold (casefold (rev (lstrip s))).
  rewrite lstrip_casefold by (apply Forall_rev, lstrip_ascii, Hs).
  unfold casefold. now rewrite map_rev.
Qed.

(** On ASCII text the normalization sees the text only up to the case of
    its letters. *)
Lemma normalize_casefold (s : str) :
  Forall is_ascii s -> normalize (casefold s) = normalize s.
Proof.
  intros Hs. unfold normalize, title. rewrite (strip_casefold Hs).
  apply do_title_casefold, strip_ascii, Hs.
Qed.

End StrMore.

(** X1.  A name is blank exactly when its text is empty or all
    whitespace: the add form is refused with the blank-name message, the
    inventory untouched, for these texts and no others, and the search
    page shows nothing at all for these texts and no others. *)
Theorem blank_name_iff_whitespace :
  forall (inv : inventory) (f : add_form) (text : str),
    (add_item inv f true = Ok (inv, [Error_enter_item_name])
       <-> forallb isspace (add_name f) = true)
    /\ (search_item inv text = [] <-> forallb isspace text = true).
Proof.
  intros inv f text. split.
  - rewrite <- StrMore.normalize_nil_iff. split.
    + intros Hrun. destruct (normalize (add_name f)) as [|c n] eqn:E; [reflexivity|].
      exfalso.
      assert (Hn : normalize (add_name f) <> []) by (rewrite E; discriminate).
      destruct (Dict.get (normalize (add_name f)) inv) as [it|] eqn:Hg.
      * rewrite (@add_item_existing inv f it Hn Hg) in Hrun. discriminate.
      * rewrite (@add_item_new inv f Hn Hg) in Hrun. discriminate.
    + apply add_item_blank.
  - rewrite <- StrMore.normalize_nil_iff. unfold search_item.
    destruct (normalize text) as [|c n]; simpl.
    + tauto.
    + destruct (Dict.get (c :: n) inv); split; discriminate.
Qed.

(** X2.  Names that differ only in the case of their ASCII letters and in
    whitespace around them normalize to the same key. *)
Theorem normalize_ignores_case_and_padding :
  forall (s t pre post pre' post' : str),
    Forall is_ascii s -> Forall is_ascii t ->
    casefold s = casefold t ->
    forallb isspace pre = true -> forallb isspace post = true ->
    forallb isspace pre' = true -> forallb isspace post' = true ->
    normalize (pre ++ s ++ post) = normalize (pre' ++ t ++ post').
Proof.
  intros s t pre post pre' post' Hs Ht Hfold Hpre Hpost Hpre' Hpost'.
  unfold normalize at 1 2. rewrite !StrMore.strip_padding by assumption.
  change (normalize s = normalize t).
  rewrite <- (StrMore.normalize_casefold Hs), <- (StrMore.normalize_casefold Ht).
  now rewrite Hfold.
Qed.

Lemma normalize_ignores_case_and_padding_witness :
  Forall is_ascii (lit "pen") /\ Forall is_ascii (lit "PEN")
  /\ casefold (lit "pen") = casefold (lit "PEN")
  /\ normalize (lit "  " ++ lit "pen" ++ lit " ") = normalize ([] ++ lit "PEN" ++ []).
Proof.
  assert (Hs : Forall is_ascii (lit "pen")) by repeat constructor.
  assert (Ht : Forall is_ascii (lit "PEN")) by repeat constructor.
  split; [exact Hs|]. split; [exact Ht|]. split; [reflexivity|].
  exact (@normalize_ignores_case_and_padding (lit "pen") (lit "PEN")
           (lit "  ") (lit " ") [] [] Hs Ht eq_refl eq_refl eq_refl eq_refl eq_refl).
Defined.

(* ================================================================== *)
(** ** The filters and the metrics of the view page *)

Section Filters.

Lemma filter_filter_andb (A : Type) (f g : A -> bool) (l : list A) :
  filter g (filter f l) = filter (fun x => f x && g x) l.
Proof.
  induction l as [|x t IH]; simpl; [reflexivity|].
  destruct (f x); simpl; [destruct (g x); now rewrite IH | exact IH].
Qed.

Lemma status_filter_on_row (fs : status_choice) (kv : str * item) :
  match fs with
  | All_statuses => true
  | Adequate => str_contains [green_circle] (Status (row_of kv))
  | Low_Stock => str_contains [red_circle] (Status (row_of kv))
  end = status_matches fs (snd kv).
Proof.
  destruct fs.
  - reflexivity.
  - change (str_contains [green_circle] (Status (row_of kv))
            = (min_stock (snd kv) <=? quantity (snd kv))%Z).
    rewrite green_circle_marks_adequate. unfold is_low.
    symmetry. apply Z.leb_antisym.
  - apply red_circle_marks_low.
Qed.

(** The filtered table, read on the inventory. *)
Lemma apply_filters_rows (inv : inventory)
      (fc : category_choice) (fs : status_choice) :
  apply_filters (map row_of inv) fc fs
  = map row_of (filter (fun kv => category_matches fc (snd kv)
                                  && status_matches fs (snd kv)) inv).
Proof.
  assert (Hc : forall rows,
             match fc with
             | All_categories => map row_of rows
             | Only c => filter (fun r => if category_eq_dec (Category r) c
                                          then true else false) (map row_of rows)
             end = map row_of (filter (fun kv => category_matches fc (snd kv)) rows)).
  { intros rows. destruct fc; simpl.
    - f_equal. symmetry. apply forallb_filter_id. apply forallb_forall. reflexivity.
    - now rewrite filter_map_swap. }
  unfold apply_filters. rewrite Hc.
  rewrite <- filter_filter_andb.
  set (rows := filter (fun kv => category_matches fc (snd kv)) inv).
  destruct fs.
  - simpl. f_equal. symmetry. apply forallb_filter_id. apply forallb_forall. reflexivity.
  - rewrite filter_map_swap. f_equal. apply filter_ext. intros kv.
    apply (status_filter_on_row Adequate).
  - rewrite filter_map_swap. f_equal. apply filter_ext. intros kv.
    apply (status_filter_on_row Low_Stock).
Qed.

Lemma low_stock_items_rows (l : inventory) :
  low_stock_items (map row_of l) = List.length (filter is_low l).
Proof.
  unfold low_stock_items. rewrite filter_map_swap, length_map. f_equal.
  apply filter_ext. intros kv. rewrite status_of_row. unfold is_low.
  destruct (_ <? _)%Z.
  - destruct (str_eq_dec status_low_stock status_low_stock); congruence.
  - destruct (str_eq_dec status_adequate status_low_stock) as [E|N];
      [symmetry in E; now apply status_strings_differ in E | reflexivity].
Qed.

Lemma filter_none (A : Type) (f : A -> bool) (l : list A) :
  filter (fun x => negb (f x) && f x) l = [].
Proof.
  induction l as [|x t IH]; simpl; [reflexivity|].
  destruct (f x); simpl; exact IH.
Qed.

Lemma filter_complement_perm (A : Type) (f : A -> bool) (l : list A) :
  Permutation l (filter (fun x => negb (f x)) l ++ filter f l).
Proof.
  induction l as [|x t IH]; simpl; [constructor|].
  destruct (f x); simpl.
  - apply Permutation_cons_app. exact IH.
  - now constructor.
Qed.

End Filters.

(** X3.  The table of the view page under any choice of the two filters
    holds, in the order of the inventory, exactly the items whose category
    is the one chosen (or any, for "All") and whose status is the one
    chosen: "Adequate" when [min_stock <= quantity], "Low Stock" when
    [quantity < min_stock], either for "All". *)
Theorem view_filters_exact :
  forall (inv : inventory) (fc : category_choice) (fs : status_choice),
    apply_filters (map row_of inv) fc fs
    = map row_of (filter (fun kv => category_matches fc (snd kv)
                                    && status_matches fs (snd kv)) inv)
    /\ forall r,
         In r (apply_filters (map row_of inv) fc fs) <->
         exists name it,
           In (name, it) inv /\ r = row_of (name, it)
           /\ (fc = All_categories \/ fc = Only (category it))
           /\ match fs with
              | All_statuses => True
              | Adequate => (min_stock it <= quantity it)%Z
              | Low_Stock => (quantity it < min_stock it)%Z
              end.
Proof.
  intros inv fc fs. split; [apply apply_filters_rows|].
  intros r. rewrite apply_filters_rows, in_map_iff.
  assert (Hc : forall it, category_matches fc it = true <->
                          (fc = All_categories \/ fc = Only (category it))).
  { intros it. destruct fc as [|c]; simpl.
    - split; auto.
    - destruct (category_eq_dec (category it) c) as [E|N]; split; intros H.
      + right. now rewrite E.
      + reflexivity.
      + discriminate.
      + destruct H as [H|H]; [discriminate | inversion H; congruence]. }
  assert (Hs : forall it, status_matches fs it = true <->
                          match fs with
                          | All_statuses => True
                          | Adequate => (min_stock it <= quantity it)%Z
                          | Low_Stock => (quantity it < min_stock it)%Z
                          end).
  { intros it. destruct fs; simpl.
    - tauto.
    - apply Z.leb_le.
    - apply Z.ltb_lt. }
  split.
  - intros ([name it] & E & Hin). apply filter_In in Hin as [Hin Hm].
    simpl in Hm. apply andb_true_iff in Hm as [H1 H2].
    exists name, it. split; [assumption|]. split; [auto|].
    split; [now apply Hc | now apply Hs].
  - intros (name & it & Hin & E & H1 & H2). exists (name, it).
    split; [auto|]. apply filter_In. split; [assumption|]. simpl.
    apply andb_true_iff. split; [now apply Hc | now apply Hs].
Qed.

(** The counts of the tables under the three choices of the status
    filter. *)
Lemma status_filter_counts (inv : inventory) (fc : category_choice) :
  let all := apply_filters (map row_of inv) fc All_statuses in
  let adequate := apply_filters (map row_of inv) fc Adequate in
  let low := apply_filters (map row_of inv) fc Low_Stock in
  low_stock_items low = total_items low
  /\ low_stock_items adequate = 0%nat
  /\ low_stock_items all = total_items low
  /\ total_items all = (total_items adequate + total_items low)%nat.
Proof.
  cbv zeta. rewrite !apply_filters_rows.
  rewrite <- !filter_filter_andb.
  set (rows := filter (fun kv => category_matches fc (snd kv)) inv).
  assert (Hall : filter (fun kv : str * item => status_matches All_statuses (snd kv)) rows = rows).
  { apply forallb_filter_id. apply forallb_forall. reflexivity. }
  rewrite Hall. rewrite !low_stock_items_rows. unfold total_items.
  rewrite !length_map.
  assert (Hlow : filter (fun kv : str * item => status_matches Low_Stock (snd kv)) rows
                 = filter is_low rows) by reflexivity.
  assert (Hadq : filter (fun kv : str * item => status_matches Adequate (snd kv)) rows
                 = filter (fun kv => negb (is_low kv)) rows).
  { apply filter_ext. intros kv. simpl. unfold is_low. apply Z.leb_antisym. }
  rewrite Hlow, Hadq.
  pose proof (filter_complement_perm is_low rows) as HP.
  split; [|split; [|split]].
  - rewrite filter_filter_andb. f_equal. apply filter_ext. intros kv.
    apply andb_diag.
  - rewrite filter_filter_andb.
    now rewrite filter_none.
  - reflexivity.
  - apply Permutation_length in HP. now rewrite length_app in HP.
Qed.

(** X4.  The metrics under the status filter, whenever the view page
    shows them: the item count is the number of rows of the filtered
    table; with "Low Stock" chosen the low-stock count equals the item
    count, with "Adequate" chosen it is zero, and with "All" chosen it is
    the number of rows of the "Low Stock" table, which together with the
    rows of the "Adequate" table make up the item count. *)
Theorem status_filter_metrics :
  forall (inv : inventory) (fc : category_choice) (fs : status_choice)
         (out : list output) (n : nat) (q : Z) (v : float) (l : nat),
    view_inventory inv fc fs = Ok out ->
    In (Metrics n q v l) out ->
    n = List.length (apply_filters (map row_of inv) fc fs)
    /\ match fs with
       | Low_Stock => l = n
       | Adequate => l = 0%nat
       | All_statuses =>
           l = List.length (apply_filters (map row_of inv) fc Low_Stock)
           /\ n = (List.length (apply_filters (map row_of inv) fc Adequate) + l)%nat
       end.
Proof.
  intros inv fc fs out n q v l Hrun Hin.
  apply view_inventory_shows in Hrun.
  destruct Hrun as [[_ ->]|(_ & _ & v0 & _ & ->)].
  { destruct Hin as [E|[]]. discriminate. }
  destruct Hin as [E|[E|[]]]; [discriminate|].
  injection E as <- _ _ <-.
  destruct (status_filter_counts inv fc) as (H1 & H2 & H3 & H4).
  unfold total_items in *. split; [reflexivity|].
  destruct fs; [split; [exact H3 | rewrite H3; exact H4] | exact H2 | exact H1].
Qed.

Lemma status_filter_metrics_witness :
  view_inventory seven_items All_categories All_statuses
  = Ok [Dataframe (map row_of seven_items); Metrics 7 524 533 3]
  /\ 7%nat = List.length (apply_filters (map row_of seven_items)
                            All_categories All_statuses)
  /\ 3%nat = List.length (apply_filters (map row_of seven_items)
                            All_categories Low_Stock)
  /\ 7%nat = (List.length (apply_filters (map row_of seven_items)
                             All_categories Adequate) + 3)%nat.
Proof.
  assert (Hrun : view_inventory seven_items All_categories All_statuses
                 = Ok [Dataframe (map row_of seven_items); Metrics 7 524 533 3])
    by reflexivity.
  split; [exact Hrun|].
  exact (@status_filter_metrics seven_items All_categories All_statuses
           _ 7%nat 524%Z 533%float 3%nat Hrun (or_intror (or_introl eq_refl))).
Defined.

(* ================================================================== *)
(** ** The sidebar against the view page *)

(** X5.  The names listed by the low-stock alert of the sidebar are the
    Name column of the table filtered on "Low Stock", in the same order;
    nothing is shown when that table is empty. *)
Theorem sidebar_alert_is_low_stock_table :
  forall inv : inventory,
    let names :=
      map Name (apply_filters (map row_of inv) All_categories Low_Stock) in
    check_stock_balance inv None =
      Ok (match names with
          | [] => []
          | _ :: _ => Sidebar_error_low_stock_alert :: map Sidebar_write names
          end).
Proof.
  intros inv names. rewrite check_stock_balance_all. unfold alert_all.
  assert (E : names = map fst (filter is_low inv)).
  { unfold names. rewrite low_stock_filter, map_map. reflexivity. }
  rewrite E. unfold is_low.
  destruct (map fst _); reflexivity.
Qed.

Section SidebarSummary.

(** The sidebar either raises or shows the summary and the alert. *)
Lemma sidebar_shows (inv : inventory) (side : list output) :
  sidebar inv = Ok side ->
  (inv = [] /\ side = [Sidebar_info_no_items])
  \/ (inv <> []
      /\ exists v,
          side = Sidebar_summary (List.length inv)
                   (int_sum (map (fun kv => quantity (snd kv)) inv)) v
                 :: alert_all inv).
Proof.
  unfold sidebar. destruct inv as [|kv t] eqn:Ei.
  - intros H. injection H as <-. now left.
  - rewrite <- Ei. destruct (item_values inv) as [values|e]; [|discriminate].
    cbn [bind]. rewrite check_stock_balance_all. cbn [bind].
    intros H. injection H as <-. right.
    split; [rewrite Ei; discriminate|]. eexists. reflexivity.
Qed.

Lemma alert_all_shape (inv : inventory) (o : output) :
  In o (alert_all inv) ->
  o = Sidebar_error_low_stock_alert \/ exists name, o = Sidebar_write name.
Proof.
  unfold alert_all. destruct (map fst _) as [|x names]; [intros []|].
  intros [E|Hin]; [now left | right].
  apply in_map_iff in Hin as (name & E & _). eauto.
Qed.

Lemma listed_names_alert_all (inv : inventory) :
  listed_names (alert_all inv) = map fst (filter is_low inv).
Proof.
  unfold alert_all. fold is_low.
  destruct (map fst (filter is_low inv)) as [|x names]; [reflexivity|].
  unfold listed_names. cbn [flat_map app].
  induction (x :: names) as [|y t IH]; [reflexivity|].
  simpl. now rewrite IH.
Qed.

Lemma wrap64_small (z : Z) :
  (- 2 ^ 63 <= z < 2 ^ 63)%Z -> wrap64 z = z.
Proof. intros H. unfold wrap64. rewrite Z.mod_small; lia. Qed.

Lemma infer_dtype_int64 (values : list Z) :
  (forall z, In z values -> (- 2 ^ 63 <= z < 2 ^ 63)%Z) ->
  infer_dtype values = int64.
Proof.
  intros H. unfold infer_dtype.
  replace (forallb _ values) with true; [reflexivity|].
  symmetry. apply forallb_forall. intros z Hz. apply H in Hz.
  apply andb_true_iff. split; [apply Z.leb_le | apply Z.ltb_lt]; lia.
Qed.

End SidebarSummary.

(** X6.  The sidebar against the metrics of the view page with both
    filters on "All", whenever the page is shown to the end (the inventory
    then holds exactly seven items).  Both show the same number of items.
    The low-stock count of the metrics is the number of names listed under
    the alert of the sidebar.  When every quantity fits in a 64-bit signed
    integer, the total quantity of the metrics is the total of the sidebar
    wrapped around to 64 bits; the two are equal when the total fits as
    well. *)
Theorem sidebar_summary_matches_metrics :
  forall (inv inv' : inventory) (out : list output)
         (n : nat) (q : Z) (v : float) (n' : nat) (q' : Z) (v' : float) (l : nat),
    main inv (View_Inventory All_categories All_statuses) = Ok (inv', out) ->
    In (Sidebar_summary n q v) out ->
    In (Metrics n' q' v' l) out ->
    n = 7%nat
    /\ n' = n
    /\ l = List.length (listed_names out)
    /\ ((forall name it, In (name, it) inv ->
                         (- 2 ^ 63 <= quantity it < 2 ^ 63)%Z) ->
        q' = wrap64 q
        /\ ((- 2 ^ 63 <= q < 2 ^ 63)%Z -> q' = q)).
Proof.
  intros inv inv' out n q v n' q' v' l Hrun Hs Hm. unfold main in Hrun.
  destruct (sidebar inv) as [side|e] eqn:Hside; [|discriminate].
  cbn [bind] in Hrun.
  destruct (view_inventory inv All_categories All_statuses)
    as [table|e] eqn:Hview; [|discriminate].
  cbn [bind fst snd] in Hrun. injection Hrun as <- <-.
  apply view_inventory_shows in Hview.
  destruct Hview as [[_ ->]|(Hne & Hlen & v0 & _ & ->)].
  { apply in_app_or in Hm as [Hm|[Hm|[]]]; [|discriminate].
    apply sidebar_shows in Hside as [[_ ->]|(_ & v1 & ->)].
    - destruct Hm as [Hm|[]]. discriminate.
    - destruct Hm as [Hm|Hm]; [discriminate|].
      apply alert_all_shape in Hm as [Hm|[name Hm]]; discriminate. }
  apply sidebar_shows in Hside as [[E _]|(_ & v1 & ->)]; [contradiction|].
  cbv zeta in *.
  change (apply_filters (map row_of inv) All_categories All_statuses)
    with (map row_of inv) in *.
  assert (Es : n = List.length inv
               /\ q = int_sum (map (fun kv => quantity (snd kv)) inv)).
  { apply in_app_or in Hs as [[E|Hs]|[E|[E|[]]]]; try discriminate.
    - now injection E as <- <- _.
    - apply alert_all_shape in Hs as [E|[name E]]; discriminate. }
  assert (Em : n' = total_items (map row_of inv)
               /\ q' = total_quantity
                         (infer_dtype (map (fun kv => quantity (snd kv)) inv))
                         (map row_of inv)
               /\ l = low_stock_items (map row_of inv)).
  { apply in_app_or in Hm as [[E|Hm]|[E|[E|[]]]]; try discriminate.
    - apply alert_all_shape in Hm as [E|[name E]]; discriminate.
    - now injection E as <- <- _ <-. }
  destruct Es as [-> ->]. destruct Em as (-> & -> & ->).
  unfold total_items, total_quantity in *. rewrite length_map in *.
  rewrite map_map. change (fun x : str * item => Quantity (row_of x))
    with (fun kv : str * item => quantity (snd kv)).
  split; [|split; [reflexivity|split]].
  - destruct Hlen as [Hlen|Hlen]; [|exact Hlen].
    apply length_zero_iff_nil in Hlen. contradiction.
  - rewrite low_stock_items_rows. unfold listed_names.
    rewrite flat_map_app. cbn [flat_map app]. rewrite app_nil_r.
    change (List.length (filter is_low inv)
            = List.length (listed_names (alert_all inv))).
    now rewrite listed_names_alert_all, length_map.
  - intros Hfit. rewrite infer_dtype_int64.
    + split; [reflexivity|]. intros Hsum. apply wrap64_small, Hsum.
    + intros z Hz. apply in_map_iff in Hz as ([name it] & <- & Hin).
      exact (Hfit name it Hin).
Qed.

Lemma sidebar_summary_matches_metrics_witness :
  main seven_items (View_Inventory All_categories All_statuses)
  = Ok (seven_items,
        [ Sidebar_summary 7 524 533;
          Sidebar_error_low_stock_alert;
          Sidebar_write (lit "Ink"); Sidebar_write (lit "Eraser");
          Sidebar_write (lit "Folder");
          Dataframe (map row_of seven_items);
          Metrics 7 524 533 3 ])
  /\ (524 = wrap64 524)%Z.
Proof.
  assert (Hrun : main seven_items (View_Inventory All_categories All_statuses)
                 = Ok (seven_items,
                       [ Sidebar_summary 7 524 533;
                         Sidebar_error_low_stock_alert;
                         Sidebar_write (lit "Ink"); Sidebar_write (lit "Eraser");
                         Sidebar_write (lit "Folder");
                         Dataframe (map row_of seven_items);
                         Metrics 7 524 533 3 ])) by reflexivity.
  split; [exact Hrun|].
  destruct (@sidebar_summary_matches_metrics seven_items seven_items _
              7%nat 524%Z 533%float 7%nat 524%Z 533%float 3%nat Hrun
              (or_introl eq_refl)
              (or_intror (or_intror (or_intror (or_intror (or_intror
                 (or_intror (or_introl eq_refl))))))))
    as (_ & _ & _ & Hq).
  assert (Hfit : forall name it, In (name, it) seven_items ->
                   (- 2 ^ 63 <= quantity it < 2 ^ 63)%Z).
  { intros name it Hin. simpl in Hin.
    repeat (destruct Hin as [E|Hin]; [injection E as _ <-; simpl; lia|]).
    contradiction. }
  exact (proj1 (Hq Hfit)).
Defined.

(** Seven items of 2^62 each: the sidebar shows their total, the metrics
    show it wrapped around to a negative number. *)
Example total_quantity_wraps :
  exists v v',
    main seven_heavy (View_Inventory All_categories All_statuses)
    = Ok (seven_heavy,
          [ Sidebar_summary 7 (7 * 2 ^ 62) v;
            Dataframe (map row_of seven_heavy);
            Metrics 7 (- 2 ^ 62) v' 0 ]).
Proof. do 2 eexists. vm_compute. reflexivity. Qed.

(* ================================================================== *)
(** ** Edge cases of check_stock_balance and update_item *)

(** X7.  [check_stock_balance] returns silently on an empty inventory,
    whatever name it is given; it treats the empty name like no name; the
    check of the whole inventory never raises; and the check of one item
    raises [KeyError] exactly when the inventory is not empty and the
    name, not empty, is not one of its keys. *)
Theorem check_stock_balance_edges :
  forall (inv : inventory) (name : str),
    check_stock_balance [] (Some name) = Ok []
    /\ check_stock_balance inv (Some []) = check_stock_balance inv None
    /\ (exists out, check_stock_balance inv None = Ok out)
    /\ (check_stock_balance inv (Some name) = Raise (KeyError name)
        <-> inv <> [] /\ name <> [] /\ Dict.get name inv = None)
    /\ (forall e, check_stock_balance inv (Some name) = Raise e ->
                  e = KeyError name).
Proof.
  intros inv name. split; [reflexivity|].
  split; [now rewrite check_stock_balance_blank, check_stock_balance_all|].
  split; [eexists; apply check_stock_balance_all|].
  assert (Hcases :
            (inv <> [] /\ name <> [] /\ Dict.get name inv = None
             /\ check_stock_balance inv (Some name) = Raise (KeyError name))
            \/ ((inv = [] \/ name = [] \/ exists it, Dict.get name inv = Some it)
                /\ exists out, check_stock_balance inv (Some name) = Ok out)).
  { destruct inv as [|kv t] eqn:Ei.
    { right. split; [auto | eexists; reflexivity]. }
    rewrite <- Ei.
    assert (Hne : inv <> []) by (rewrite Ei; discriminate).
    destruct name as [|c n] eqn:En.
    { right. split; [auto|]. rewrite check_stock_balance_blank. eauto. }
    rewrite <- En. assert (Hn : name <> []) by (rewrite En; discriminate).
    destruct (Dict.get name inv) as [it|] eqn:Hg.
    - right. split; [eauto|].
      rewrite (@check_stock_balance_one inv name it Hn Hg). eauto.
    - left. repeat split; try assumption.
      unfold check_stock_balance. rewrite Ei, En. rewrite <- En, <- Ei.
      unfold Dict.getitem. rewrite Hg. reflexivity. }
  split.
  - split.
    + intros Hr. destruct Hcases as [(H1 & H2 & H3 & _)|(_ & out & Ho)];
        [auto | congruence].
    + intros (H1 & H2 & H3).
      destruct Hcases as [(_ & _ & _ & Hr)|([H|[H|[it H]]] & _)];
        [assumption | congruence ..].
  - intros e Hr. destruct Hcases as [(_ & _ & _ & Hr')|(_ & out & Ho)]; congruence.
Qed.

(** X8.  The update page: it shows the "no items" warning exactly when the
    inventory is empty; on an inventory that is not empty it raises
    [KeyError] exactly when the selection, not the empty string, is not a
    key; for the empty string as selection it shows nothing and changes
    nothing; and while the form is not submitted the inventory is left as
    it is. *)
Theorem update_item_edges :
  forall (inv : inventory) (selected : str) (f : update_form) (submitted : bool),
    (update_item inv selected f submitted = Ok (inv, [Warning_no_items_to_update])
       <-> inv = [])
    /\ (update_item inv selected f submitted = Raise (KeyError selected)
        <-> inv <> [] /\ selected <> [] /\ Dict.get selected inv = None)
    /\ (inv <> [] -> update_item inv [] f submitted = Ok (inv, []))
    /\ (forall inv' out,
          update_item inv selected f false = Ok (inv', out) -> inv' = inv).
Proof.
  intros inv selected f submitted.
  assert (Hempty : inv = [] ->
                   forall sel sub, update_item inv sel f sub
                                   = Ok (inv, [Warning_no_items_to_update])).
  { intros ->. reflexivity. }
  assert (Hblank : inv <> [] -> forall sub, update_item inv [] f sub = Ok (inv, [])).
  { intros Hne sub. destruct inv as [|kv t]; [congruence | reflexivity]. }
  assert (Hmiss : inv <> [] -> forall (sel : str) sub, sel <> [] -> Dict.get sel inv = None ->
                  update_item inv sel f sub = Raise (KeyError sel)).
  { intros Hne sel sub Hs Hg. destruct inv as [|kv t] eqn:Ei; [congruence|].
    rewrite <- Ei in *. unfold update_item. rewrite Ei at 1. cbn [Dict.keys map].
    destruct sel as [|c n]; [congruence|]. cbn [truthy].
    unfold Dict.getitem. rewrite Hg. reflexivity. }
  assert (Hhit : forall (sel : str) sub it, sel <> [] -> Dict.get sel inv = Some it ->
                 exists inv' out, update_item inv sel f sub = Ok (inv', out)
                                  /\ out <> [Warning_no_items_to_update]
                                  /\ (sub = false -> inv' = inv)).
  { intros sel sub it Hs Hg. destruct sub.
    - destruct (str_eq_dec (normalize (new_name_text f)) sel) as [E|N].
      + rewrite (@update_item_same_name inv sel f it Hs Hg E).
        do 2 eexists. split; [reflexivity|]. split; [discriminate|discriminate].
      + rewrite (@update_item_rename inv sel f it Hs Hg N). cbv zeta.
        do 2 eexists. split; [reflexivity|]. split; [discriminate|discriminate].
    - rewrite (@update_item_not_submitted inv sel f it Hs Hg).
      do 2 eexists. split; [reflexivity|]. split; [discriminate|reflexivity]. }
  assert (Hcases : forall sel : str,
             inv = [] \/ (inv <> [] /\ sel = [])
             \/ (inv <> [] /\ sel <> [] /\ Dict.get sel inv = None)
             \/ (inv <> [] /\ sel <> [] /\ exists it, Dict.get sel inv = Some it)).
  { intros sel. destruct inv as [|kv t] eqn:Ei; [now left|]. rewrite <- Ei.
    assert (Hne : inv <> []) by (rewrite Ei; discriminate).
    right. destruct sel as [|c n] eqn:Es; [now left|]. rewrite <- Es.
    assert (Hs : sel <> []) by (rewrite Es; discriminate).
    right. destruct (Dict.get sel inv) eqn:Hg; [right; eauto | left; auto]. }
  split; [|split; [|split]].
  - split; [|intros E; now apply Hempty].
    intros Hr.
    destruct (Hcases selected)
      as [H|[[Hne Hs]|[(Hne & Hs & Hg)|(Hne & Hs & it & Hg)]]]; [assumption|..].
    + subst selected. rewrite (Hblank Hne) in Hr. discriminate.
    + rewrite (Hmiss Hne _ submitted Hs Hg) in Hr. discriminate.
    + destruct (Hhit selected submitted it Hs Hg) as (i & o & Ho & Hw & _).
      rewrite Ho in Hr. injection Hr as _ E. congruence.
  - split.
    + intros Hr.
      destruct (Hcases selected)
        as [H|[[Hne Hs]|[(Hne & Hs & Hg)|(Hne & Hs & it & Hg)]]].
      * rewrite (Hempty H) in Hr. discriminate.
      * subst selected. rewrite (Hblank Hne) in Hr. discriminate.
      * auto.
      * destruct (Hhit selected submitted it Hs Hg) as (i & o & Ho & _).
        rewrite Ho in Hr. discriminate.
    + intros (Hne & Hs & Hg). now apply Hmiss.
  - intros Hne. now apply Hblank.
  - intros inv' out Hr.
    destruct (Hcases selected)
      as [H|[[Hne Hs]|[(Hne & Hs & Hg)|(Hne & Hs & it & Hg)]]].
    + rewrite (Hempty H) in Hr. now injection Hr as <- _.
    + subst selected. rewrite (Hblank Hne) in Hr. now injection Hr as <- _.
    + rewrite (Hmiss Hne _ false Hs Hg) in Hr. discriminate.
    + destruct (Hhit selected false it Hs Hg) as (i & o & Ho & _ & Hi).
      rewrite Ho in Hr. injection Hr as <- _. now apply Hi.
Qed.

(* ================================================================== *)
(** ** How the pages compose *)

Section Composition.

Lemma length_set (k : str) (v : item) (d : inventory) :
  List.length (Dict.set k v d)
  = if Dict.contains k d then List.length d else S (List.length d).
Proof.
  unfold Dict.contains. destruct (Dict.get k d) as [w|] eqn:Hg.
  - rewrite <- (length_map fst), <- (length_map fst d). f_equal.
    apply DictFacts.keys_set_present. eapply DictFacts.get_Some_keys; eauto.
  - rewrite DictFacts.set_absent by (now apply DictFacts.get_None).
    rewrite length_app. simpl. lia.
Qed.

Lemma keys_remove (k : str) (d : inventory) :
  Dict.wf d ->
  Dict.keys (Dict.remove k d)
  = filter (fun k' => if str_eq_dec k k' then false else true) (Dict.keys d).
Proof.
  unfold Dict.wf. induction d as [|[k' v'] t IH]; simpl; [reflexivity|].
  intros Hnd. inversion Hnd as [|? ? Hk Hnd']; subst.
  destruct (str_eq_dec k k') as [E|N]; simpl.
  - subst k'. symmetry. apply forallb_filter_id. apply forallb_forall.
    intros x Hx. destruct (str_eq_dec k x); [congruence | reflexivity].
  - f_equal. now apply IH.
Qed.

Lemma In_keys_set (k k0 : str) (v : item) (d : inventory) :
  In k (Dict.keys (Dict.set k0 v d)) -> k = k0 \/ In k (Dict.keys d).
Proof.
  intros Hin. apply DictFacts.keys_In in Hin as [w Hw].
  destruct (str_eq_dec k k0) as [E|N]; [now left|].
  right. rewrite DictFacts.get_set_other in Hw by assumption.
  eapply DictFacts.get_Some_keys; eauto.
Qed.

(** The inventory and the messages after the update form is submitted
    with a name that is not blank. *)
Lemma update_item_named (inv : inventory) (selected : str)
      (f : update_form) (it : item) :
  selected <> [] -> Dict.get selected inv = Some it ->
  normalize (new_name_text f) <> [] ->
  update_item inv selected f true =
    Ok (Dict.set (normalize (new_name_text f)) (item_of_update f)
          (if str_eq_dec (normalize (new_name_text f)) selected
           then inv else Dict.remove selected inv),
        Success_updated (normalize (new_name_text f))
          :: alert_for (normalize (new_name_text f)) (item_of_update f)).
Proof.
  intros Hs Hg Hn.
  destruct (str_eq_dec (normalize (new_name_text f)) selected) as [E|N].
  - rewrite (@update_item_same_name inv selected f it Hs Hg E). now rewrite E.
  - rewrite (@update_item_rename inv selected f it Hs Hg N). cbv zeta.
    destruct (normalize (new_name_text f)); [congruence | reflexivity].
Qed.

End Composition.

(** X9.  Submitting the update form without changing the name (the new
    name normalizes to the selected key) rewrites the record in place: the
    keys and their order are as before, the selected key holds the values
    of the form, and every other key keeps its record. *)
Theorem update_item_in_place :
  forall (inv : inventory) (selected : str) (f : update_form) (it : item),
    truthy selected = true ->
    Dict.get selected inv = Some it ->
    normalize (new_name_text f) = selected ->
    exists inv' alert,
      update_item inv selected f true = Ok (inv', Success_updated selected :: alert)
      /\ Dict.keys inv' = Dict.keys inv
      /\ Dict.get selected inv' =
           Some {| category := new_category f;
                   publisher := new_publisher f;
                   price := new_price f;
                   quantity := new_quantity f;
                   min_stock := new_min_stock f |}
      /\ forall k, k <> selected -> Dict.get k inv' = Dict.get k inv.
Proof.
  intros inv selected f it Ht Hg Hn.
  assert (Hs : selected <> []) by (intros E; rewrite E in Ht; discriminate).
  rewrite (@update_item_same_name inv selected f it Hs Hg Hn).
  do 2 eexists. split; [reflexivity|]. split; [|split].
  - apply DictFacts.keys_set_present. eapply DictFacts.get_Some_keys; eauto.
  - apply DictFacts.get_set_same.
  - intros k Hk. now apply DictFacts.get_set_other.
Qed.

Lemma update_item_in_place_witness :
  truthy (lit "Pencil") = true
  /\ Dict.get (lit "Pencil") [(lit "Pencil", pen_item)] = Some pen_item
  /\ normalize (new_name_text pencil_update_form) = lit "Pencil"
  /\ exists inv' alert,
       update_item [(lit "Pencil", pen_item)] (lit "Pencil") pencil_update_form true
       = Ok (inv', Success_updated (lit "Pencil") :: alert)
       /\ Dict.keys inv' = [lit "Pencil"].
Proof.
  split; [reflexivity|]. split; [reflexivity|]. split; [reflexivity|].
  destruct (@update_item_in_place [(lit "Pencil", pen_item)] (lit "Pencil")
              pencil_update_form pen_item eq_refl eq_refl eq_refl)
    as (inv' & alert & Hrun & Hkeys & _).
  exists inv', alert. split; assumption.
Defined.

(** X10.  Where a renamed record goes.  For an inventory with distinct
    keys, submitting the update form with a new name that differs from
    the selected key: if the new key is free, the record leaves its place
    and goes last; if the new key is in use, the record takes the place of
    the record it replaces.  In both cases the remaining keys keep their
    order. *)
Theorem update_item_rename_order :
  forall (inv : inventory) (selected : str) (f : update_form) (it : item),
    Dict.wf inv ->
    truthy selected = true ->
    Dict.get selected inv = Some it ->
    normalize (new_name_text f) <> selected ->
    let new_name := normalize (new_name_text f) in
    let others :=
      filter (fun k => if str_eq_dec selected k then false else true)
             (Dict.keys inv) in
    exists inv' out,
      update_item inv selected f true = Ok (inv', out)
      /\ (Dict.contains new_name inv = false ->
          Dict.keys inv' = others ++ [new_name])
      /\ (Dict.contains new_name inv = true -> Dict.keys inv' = others).
Proof.
  intros inv selected f it Hwf Ht Hg Hne new_name others.
  assert (Hs : selected <> []) by (intros E; rewrite E in Ht; discriminate).
  rewrite (@update_item_rename inv selected f it Hs Hg Hne). cbv zeta.
  fold new_name. do 2 eexists. split; [reflexivity|].
  unfold others. rewrite <- (keys_remove selected Hwf).
  unfold Dict.contains. split; intros Hc.
  - assert (Hnin : ~ In new_name (Dict.keys (Dict.remove selected inv))).
    { intros Hin. apply DictFacts.keys_remove_incl in Hin.
      apply DictFacts.keys_In in Hin as [v Hv]. rewrite Hv in Hc. discriminate. }
    rewrite DictFacts.set_absent by exact Hnin.
    unfold Dict.keys. now rewrite map_app.
  - apply DictFacts.keys_set_present.
    destruct (Dict.get new_name inv) as [v|] eqn:E; [|discriminate].
    apply DictFacts.get_Some_keys with (v := v).
    rewrite DictFacts.get_remove_other; [assumption|].
    intros E'. apply Hne. exact E'.
Qed.

Lemma update_item_rename_order_witness :
  Dict.wf pen_and_ink
  /\ truthy (lit "Pen") = true
  /\ Dict.get (lit "Pen") pen_and_ink = Some pen_item
  /\ normalize (new_name_text rename_to_ink) <> lit "Pen"
  /\ exists inv' out,
       update_item pen_and_ink (lit "Pen") rename_to_ink true = Ok (inv', out)
       /\ Dict.keys inv' = [lit "Ink"].
Proof.
  assert (Hwf : Dict.wf pen_and_ink).
  { unfold Dict.wf. simpl. repeat constructor; simpl; intuition discriminate. }
  assert (Hne : normalize (new_name_text rename_to_ink) <> lit "Pen").
  { vm_compute. discriminate. }
  split; [exact Hwf|]. split; [reflexivity|]. split; [reflexivity|].
  split; [exact Hne|].
  destruct (@update_item_rename_order pen_and_ink (lit "Pen") rename_to_ink
              pen_item Hwf eq_refl eq_refl Hne)
    as (inv' & out & Hrun & _ & Hused).
  exists inv', out. split; [exact Hrun|]. exact (Hused eq_refl).
Defined.

(** X11.  Submitting the same update form a second time, now for the key
    the record has after the first time, leaves the inventory as the first
    submission made it. *)
Theorem update_item_twice :
  forall (inv inv' : inventory) (selected : str) (f : update_form)
         (it : item) (out : list output),
    truthy selected = true ->
    Dict.get selected inv = Some it ->
    update_item inv selected f true = Ok (inv', out) ->
    exists out',
      update_item inv' (normalize (new_name_text f)) f true = Ok (inv', out').
Proof.
  intros inv inv' selected f it out Ht Hg Hrun.
  assert (Hs : selected <> []) by (intros E; rewrite E in Ht; discriminate).
  destruct (str_eq_dec (normalize (new_name_text f)) []) as [En|Hn].
  - assert (Hne : normalize (new_name_text f) <> selected) by (rewrite En; congruence).
    rewrite (@update_item_rename inv selected f it Hs Hg Hne) in Hrun.
    cbv zeta in Hrun. injection Hrun as <- _. rewrite En.
    eexists. apply update_item_blank_selection. apply set_not_nil.
  - rewrite (@update_item_named inv selected f it Hs Hg Hn) in Hrun.
    injection Hrun as <- _.
    set (base := if str_eq_dec (normalize (new_name_text f)) selected
                 then inv else Dict.remove selected inv).
    pose proof (@update_item_same_name
                  (Dict.set (normalize (new_name_text f)) (item_of_update f) base)
                  (normalize (new_name_text f)) f (item_of_update f) Hn
                  (DictFacts.get_set_same _ _ _) eq_refl) as Hagain.
    rewrite set_set in Hagain. eexists. exact Hagain.
Qed.

Lemma update_item_twice_witness :
  truthy (lit "Pen") = true
  /\ Dict.get (lit "Pen") pen_and_ink = Some pen_item
  /\ exists inv' out out',
       update_item pen_and_ink (lit "Pen") rename_to_ink true = Ok (inv', out)
       /\ update_item inv' (normalize (new_name_text rename_to_ink)) rename_to_ink true
          = Ok (inv', out').
Proof.
  split; [reflexivity|]. split; [reflexivity|].
  assert (Hrun : update_item pen_and_ink (lit "Pen") rename_to_ink true
                 = Ok ([(lit "Ink", item_of_update rename_to_ink)],
                       [Success_updated (lit "Ink")])) by reflexivity.
  destruct (@update_item_twice pen_and_ink _ (lit "Pen") rename_to_ink pen_item _
              eq_refl eq_refl Hrun) as [out' Hagain].
  do 3 eexists. split; [exact Hrun | exact Hagain].
Defined.

(** X12.  Two accepted add forms for the same normalized name leave the
    inventory that one form would leave, the first form with the sum of
    the two quantities: the second form only adds its quantity, its other
    fields are ignored, and it is reported as a quantity update. *)
Theorem add_item_twice :
  forall (inv : inventory) (f g : add_form),
    truthy (normalize (add_name f)) = true ->
    normalize (add_name g) = normalize (add_name f) ->
    exists inv1 out1 inv2 alert out,
      add_item inv f true = Ok (inv1, out1)
      /\ add_item inv1 g true
         = Ok (inv2, Success_quantity_updated (normalize (add_name f)) :: alert)
      /\ add_item inv
           {| add_name := add_name f;
              add_category := add_category f;
              add_publisher := add_publisher f;
              add_quantity := add_quantity f + add_quantity g;
              add_price := add_price f;
              add_min_stock := add_min_stock f |} true
         = Ok (inv2, out).
Proof.
  intros inv f g Ht Hname.
  set (fg := {| add_name := add_name f; add_category := add_category f;
                add_publisher := add_publisher f;
                add_quantity := add_quantity f + add_quantity g;
                add_price := add_price f; add_min_stock := add_min_stock f |}).
  assert (Hn : normalize (add_name f) <> [])
    by (intros E; rewrite E in Ht; discriminate).
  assert (Hng : normalize (add_name g) <> []) by (rewrite Hname; exact Hn).
  assert (Hnfg : normalize (add_name fg) <> []) by exact Hn.
  destruct (Dict.get (normalize (add_name f)) inv) as [it|] eqn:Hg.
  - pose proof (@add_item_existing inv f it Hn Hg) as H1.
    assert (Hg1 : Dict.get (normalize (add_name g))
                    (Dict.set (normalize (add_name f))
                       (add_quantity_to it (add_quantity f)) inv)
                  = Some (add_quantity_to it (add_quantity f)))
      by (rewrite Hname; apply DictFacts.get_set_same).
    pose proof (@add_item_existing _ g _ Hng Hg1) as H2.
    pose proof (@add_item_existing inv fg it Hnfg Hg) as H3.
    rewrite Hname, set_set in H2.
    change (normalize (add_name fg)) with (normalize (add_name f)) in H3.
    replace (add_quantity_to it (add_quantity fg))
      with (add_quantity_to (add_quantity_to it (add_quantity f)) (add_quantity g))
      in H3 by (unfold add_quantity_to; simpl; f_equal; lia).
    do 5 eexists. split; [exact H1|]. split; [exact H2 | exact H3].
  - assert (Habs : ~ In (normalize (add_name f)) (Dict.keys inv))
      by (now apply DictFacts.get_None).
    pose proof (@add_item_new inv f Hn Hg) as H1.
    rewrite <- (DictFacts.set_absent _ (item_of_add f) inv Habs) in H1.
    assert (Hg1 : Dict.get (normalize (add_name g))
                    (Dict.set (normalize (add_name f)) (item_of_add f) inv)
                  = Some (item_of_add f))
      by (rewrite Hname; apply DictFacts.get_set_same).
    pose proof (@add_item_existing _ g _ Hng Hg1) as H2.
    pose proof (@add_item_new inv fg Hnfg Hg) as H3.
    change (normalize (add_name fg)) with (normalize (add_name f)) in H3.
    rewrite <- (DictFacts.set_absent _ (item_of_add fg) inv Habs) in H3.
    rewrite Hname, set_set in H2.
    do 5 eexists. split; [exact H1|]. split; [exact H2 | exact H3].
Qed.

Lemma add_item_twice_witness :
  truthy (normalize (add_name pencil_form)) = true
  /\ normalize (add_name pencil_again_form) = normalize (add_name pencil_form)
  /\ exists inv1 out1 inv2 alert out,
       add_item [] pencil_form true = Ok (inv1, out1)
       /\ add_item inv1 pencil_again_form true
          = Ok (inv2, Success_quantity_updated (normalize (add_name pencil_form)) :: alert)
       /\ add_item []
            {| add_name := add_name pencil_form;
               add_category := add_category pencil_form;
               add_publisher := add_publisher pencil_form;
               add_quantity := add_quantity pencil_form + add_quantity pencil_again_form;
               add_price := add_price pencil_form;
               add_min_stock := add_min_stock pencil_form |} true
          = Ok (inv2, out).
Proof.
  split; [reflexivity|]. split; [reflexivity|].
  exact (@add_item_twice [] pencil_form pencil_again_form eq_refl eq_refl).
Defined.

(** X13.  Search after update.  For an inventory with distinct keys, after
    the update form is submitted with a name that is not blank, searching
    for that name shows the values of the form, with the low-stock message
    exactly when the new quantity is below the new minimum; and if the
    record was renamed, searching for the old name reports that the item
    is not found. *)
Theorem search_after_update :
  forall (inv inv' : inventory) (selected : str) (f : update_form)
         (it : item) (out : list output),
    Dict.wf inv ->
    truthy selected = true ->
    Dict.get selected inv = Some it ->
    truthy (normalize (new_name_text f)) = true ->
    update_item inv selected f true = Ok (inv', out) ->
    search_item inv' (new_name_text f)
    = [ Success_item_found;
        Markdown_details (normalize (new_name_text f))
          {| category := new_category f;
             publisher := new_publisher f;
             price := new_price f;
             quantity := new_quantity f;
             min_stock := new_min_stock f |};
        if (new_quantity f <? new_min_stock f)%Z
        then Error_low_stock (new_quantity f) (new_min_stock f)
        else Success_stock_adequate (new_quantity f) ]
    /\ (normalize (new_name_text f) <> selected ->
        forall text, normalize text = selected ->
                     search_item inv' text = [Error_item_not_found]).
Proof.
  intros inv inv' selected f it out Hwf Ht Hg Htn Hrun.
  assert (Hs : selected <> []) by (intros E; rewrite E in Ht; discriminate).
  assert (Hn : normalize (new_name_text f) <> [])
    by (intros E; rewrite E in Htn; discriminate).
  rewrite (@update_item_named inv selected f it Hs Hg Hn) in Hrun.
  injection Hrun as <- _. split.
  - unfold search_item. rewrite Htn, DictFacts.get_set_same. reflexivity.
  - intros Hne text Htext. unfold search_item. rewrite Htext, Ht.
    destruct (str_eq_dec (normalize (new_name_text f)) selected); [contradiction|].
    rewrite DictFacts.get_set_other by (intros E; apply Hne; now rewrite E).
    now rewrite (DictFacts.get_remove_same _ Hwf).
Qed.

Lemma search_after_update_witness :
  Dict.wf pen_and_ink
  /\ truthy (lit "Pen") = true
  /\ Dict.get (lit "Pen") pen_and_ink = Some pen_item
  /\ truthy (normalize (new_name_text rename_to_ink)) = true
  /\ update_item pen_and_ink (lit "Pen") rename_to_ink true
     = Ok ([(lit "Ink", item_of_update rename_to_ink)], [Success_updated (lit "Ink")])
  /\ search_item [(lit "Ink", item_of_update rename_to_ink)] (lit " ink")
     = [ Success_item_found;
         Markdown_details (lit "Ink") (item_of_update rename_to_ink);
         Success_stock_adequate 7 ].
Proof.
  assert (Hwf : Dict.wf pen_and_ink).
  { unfold Dict.wf. simpl. repeat constructor; simpl; intuition discriminate. }
  split; [exact Hwf|]. split; [reflexivity|]. split; [reflexivity|].
  split; [reflexivity|]. split; [reflexivity|].
  exact (proj1 (@search_after_update pen_and_ink _ (lit "Pen") rename_to_ink
                  pen_item _ Hwf eq_refl eq_refl eq_refl eq_refl)).
Defined.

(** X14.  What the add page reports when the form is accepted: "added"
    for a new key and "quantity updated" for a key in use, followed by the
    low-stock warning exactly when the quantity now stored, the old
    quantity plus that of the form for a key in use, is below the minimum
    stored; the warning shows the stored values. *)
Theorem add_item_reports :
  forall (inv : inventory) (f : add_form),
    truthy (normalize (add_name f)) = true ->
    let name := normalize (add_name f) in
    exists inv' it,
      add_item inv f true
      = Ok (inv',
            (if Dict.contains name inv
             then Success_quantity_updated name else Success_added name)
              :: (if (quantity it <? min_stock it)%Z
                  then [Warning_low_stock_alert name (quantity it) (min_stock it)]
                  else []))
      /\ Dict.get name inv' = Some it
      /\ quantity it = match Dict.get name inv with
                       | Some old => (quantity old + add_quantity f)%Z
                       | None => add_quantity f
                       end
      /\ min_stock it = match Dict.get name inv with
                        | Some old => min_stock old
                        | None => add_min_stock f
                        end.
Proof.
  intros inv f Ht name. unfold name.
  assert (Hn : normalize (add_name f) <> [])
    by (intros E; rewrite E in Ht; discriminate).
  unfold Dict.contains.
  destruct (Dict.get (normalize (add_name f)) inv) as [old|] eqn:Hg.
  - rewrite (@add_item_existing inv f old Hn Hg).
    exists (Dict.set (normalize (add_name f)) (add_quantity_to old (add_quantity f)) inv),
           (add_quantity_to old (add_quantity f)).
    split; [reflexivity|]. split; [apply DictFacts.get_set_same|].
    split; reflexivity.
  - rewrite (@add_item_new inv f Hn Hg).
    exists (inv ++ [(normalize (add_name f), item_of_add f)]), (item_of_add f).
    split; [reflexivity|]. split; [|split; reflexivity].
    rewrite <- DictFacts.set_absent by (now apply DictFacts.get_None).
    apply DictFacts.get_set_same.
Qed.

Lemma add_item_reports_witness :
  truthy (normalize (add_name pencil_again_form)) = true
  /\ exists inv' it,
       add_item [(lit "Pencil", pen_item)] pencil_again_form true
       = Ok (inv',
             Success_quantity_updated (lit "Pencil")
               :: (if (quantity it <? min_stock it)%Z
                   then [Warning_low_stock_alert (lit "Pencil") (quantity it) (min_stock it)]
                   else []))
       /\ Dict.get (lit "Pencil") inv' = Some it
       /\ quantity it = 13%Z
       /\ min_stock it = 5%Z.
Proof.
  split; [reflexivity|].
  exact (@add_item_reports [(lit "Pencil", pen_item)] pencil_again_form eq_refl).
Defined.

(** X15.  What the update page reports when the form is submitted with a
    name that is not blank: success under the new name, followed by the
    low-stock warning exactly when the quantity of the form is below the
    minimum of the form; the warning shows the new name and these two
    values. *)
Theorem update_item_reports :
  forall (inv : inventory) (selected : str) (f : update_form) (it : item),
    truthy selected = true ->
    Dict.get selected inv = Some it ->
    truthy (normalize (new_name_text f)) = true ->
    let new_name := normalize (new_name_text f) in
    exists inv',
      update_item inv selected f true
      = Ok (inv',
            Success_updated new_name
              :: (if (new_quantity f <? new_min_stock f)%Z
                  then [Warning_low_stock_alert new_name
                          (new_quantity f) (new_min_stock f)]
                  else [])).
Proof.
  intros inv selected f it Ht Hg Htn new_name. unfold new_name.
  assert (Hs : selected <> []) by (intros E; rewrite E in Ht; discriminate).
  assert (Hn : normalize (new_name_text f) <> [])
    by (intros E; rewrite E in Htn; discriminate).
  rewrite (@update_item_named inv selected f it Hs Hg Hn).
  eexists. reflexivity.
Qed.

Lemma update_item_reports_witness :
  truthy (lit "Pencil") = true
  /\ Dict.get (lit "Pencil") [(lit "Pencil", pen_item)] = Some pen_item
  /\ truthy (normalize (new_name_text pencil_update_form)) = true
  /\ exists inv',
       update_item [(lit "Pencil", pen_item)] (lit "Pencil") pencil_update_form true
       = Ok (inv', [Success_updated (lit "Pencil");
                    Warning_low_stock_alert (lit "Pencil") 2 5]).
Proof.
  split; [reflexivity|]. split; [reflexivity|]. split; [reflexivity|].
  exact (@update_item_reports [(lit "Pencil", pen_item)] (lit "Pencil")
           pencil_update_form pen_item eq_refl eq_refl eq_refl).
Defined.

(* ================================================================== *)
(** ** More invariants of a session *)

Section Sessions.

(** The inventory after the update page, with what is known of the
    selection. *)
Lemma update_item_inventory_cases (inv inv' : inventory) (selected : str)
      (f : update_form) (submitted : bool) (shown : list output) :
  (inv <> [] -> In selected (Dict.keys inv)) ->
  update_item inv selected f submitted = Ok (inv', shown) ->
  inv' = inv
  \/ (In selected (Dict.keys inv)
      /\ inv' = Dict.set selected (item_of_update f) inv)
  \/ (In selected (Dict.keys inv)
      /\ inv' = Dict.set (normalize (new_name_text f)) (item_of_update f)
                  (Dict.remove selected inv)).
Proof.
  intros Hsel Hrun.
  destruct (@update_item_inventory inv inv' selected f submitted shown Hsel Hrun)
    as [H|[H|H]]; [now left|..];
    (destruct inv as [|kv t] eqn:Ei;
     [ left; unfold update_item in Hrun; simpl in Hrun; now injection Hrun as <- _
     | rewrite <- Ei in *; right;
       assert (Hin : In selected (Dict.keys inv))
         by (apply Hsel; rewrite Ei; discriminate); auto ]).
Qed.

Lemma int_sum_nonneg (l : list Z) :
  Forall (fun x => (0 <= x)%Z) l -> (0 <= int_sum l)%Z.
Proof.
  induction 1 as [|x t Hx Ht IH]; [reflexivity|].
  rewrite int_sum_cons. lia.
Qed.

End Sessions.

(** X16.  Items are never deleted.  One run of the script leaves an
    inventory that is not empty not empty; the add page keeps or grows
    the inventory by one record; the update page keeps it or, when a
    rename runs onto a key in use, shrinks it by one record; the view and
    search pages leave it as it is. *)
Theorem inventory_size_step :
  forall (inv inv' : inventory) (p : page) (out : list output),
    widgets_ok inv p ->
    main inv p = Ok (inv', out) ->
    (inv <> [] -> inv' <> [])
    /\ match p with
       | Add_New_Item _ _ =>
           (List.length inv <= List.length inv' <= S (List.length inv))%nat
       | Update_Item _ _ _ =>
           (List.length inv' <= List.length inv <= S (List.length inv'))%nat
       | View_Inventory _ _ | Search_Item _ => inv' = inv
       end.
Proof.
  intros inv inv' p out Hw Hrun. apply main_inventory in Hrun.
  destruct p as [f submitted | fc fs | text | selected f submitted].
  - destruct Hrun as [shown Hrun].
    apply add_item_inventory in Hrun as [->|[[Hg ->]|(old & Hg & ->)]].
    + split; [auto | lia].
    + split; [intros _; apply set_not_nil|].
      rewrite length_set. unfold Dict.contains. rewrite Hg. lia.
    + split; [intros _; apply set_not_nil|].
      rewrite length_set. unfold Dict.contains. rewrite Hg. lia.
  - subst. auto.
  - subst. auto.
  - destruct Hrun as [shown Hrun]. destruct Hw as (Hsel & _).
    apply (@update_item_inventory_cases inv inv' selected f submitted shown Hsel)
      in Hrun as [->|[[Hin ->]|[Hin ->]]].
    + split; [auto | lia].
    + split; [intros _; apply set_not_nil|].
      rewrite length_set. unfold Dict.contains.
      apply DictFacts.keys_In in Hin as [v Hv]. rewrite Hv. lia.
    + split; [intros _; apply set_not_nil|].
      pose proof (DictFacts.length_remove _ _ Hin) as Hlen.
      rewrite length_set. destruct (Dict.contains _ _); lia.
Qed.

Lemma inventory_size_step_witness :
  widgets_ok pen_and_ink (Update_Item (lit "Pen") rename_to_ink true)
  /\ main pen_and_ink (Update_Item (lit "Pen") rename_to_ink true)
     = Ok ([(lit "Ink", item_of_update rename_to_ink)],
           [Sidebar_summary 2 11 65%float; Sidebar_error_low_stock_alert;
            Sidebar_write (lit "Ink"); Success_updated (lit "Ink")])
  /\ (List.length [(lit "Ink", item_of_update rename_to_ink)]
        <= List.length pen_and_ink
        <= S (List.length [(lit "Ink", item_of_update rename_to_ink)]))%nat.
Proof.
  assert (Hw : widgets_ok pen_and_ink (Update_Item (lit "Pen") rename_to_ink true)).
  { simpl. split; [intros _; now left|].
    repeat split; try reflexivity; intros H; discriminate H. }
  assert (Hrun : main pen_and_ink (Update_Item (lit "Pen") rename_to_ink true)
                 = Ok ([(lit "Ink", item_of_update rename_to_ink)],
                       [Sidebar_summary 2 11 65%float; Sidebar_error_low_stock_alert;
                        Sidebar_write (lit "Ink"); Success_updated (lit "Ink")]))
    by reflexivity.
  split; [exact Hw|]. split; [exact Hrun|].
  exact (proj2 (@inventory_size_step pen_and_ink _ _ _ Hw Hrun)).
Defined.

(** X17.  In every inventory a session can reach the keys are pairwise
    distinct and each key is the normalization of some text. *)
Theorem reachable_keys :
  forall inv : inventory,
    reachable inv ->
    NoDup (Dict.keys inv)
    /\ forall k, In k (Dict.keys inv) -> exists text, k = normalize text.
Proof.
  intros inv Hr. split; [exact (reachable_wf Hr)|].
  induction Hr as [|inv p inv' out Hr IH Hw Hrun]; [intros k []|].
  intros k Hin. apply main_inventory in Hrun.
  destruct p as [f submitted | fc fs | text | selected f submitted].
  - destruct Hrun as [shown Hrun].
    apply add_item_inventory in Hrun as [->|[[_ ->]|(old & _ & ->)]];
      [auto | |]; apply In_keys_set in Hin as [->|Hin]; eauto.
  - subst. auto.
  - subst. auto.
  - destruct Hrun as [shown Hrun]. destruct Hw as (Hsel & _).
    apply (@update_item_inventory_cases inv inv' selected f submitted shown Hsel)
      in Hrun as [->|[[Hs ->]|[Hs ->]]]; [auto | |].
    + apply In_keys_set in Hin as [->|Hin]; auto.
    + apply In_keys_set in Hin as [->|Hin]; [eauto|].
      apply DictFacts.keys_remove_incl in Hin. auto.
Qed.

Lemma reachable_keys_witness :
  reachable dime_inventory
  /\ NoDup (Dict.keys dime_inventory)
  /\ forall k, In k (Dict.keys dime_inventory) -> exists text, k = normalize text.
Proof.
  split; [exact dime_inventory_reachable|].
  exact (@reachable_keys dime_inventory dime_inventory_reachable).
Defined.

(** X18.  In every inventory a session can reach, the total quantity
    that the view page shows under any choice of the filters is the exact
    sum of the quantities of the rows shown, and is not negative, as long
    as that sum is below 2^63. *)
Theorem reachable_total_quantity_nonnegative :
  forall (inv : inventory) (fc : category_choice) (fs : status_choice)
         (out : list output) (n : nat) (q : Z) (v : float) (l : nat),
    reachable inv ->
    view_inventory inv fc fs = Ok out ->
    In (Metrics n q v l) out ->
    (int_sum (map Quantity (apply_filters (map row_of inv) fc fs)) < 2 ^ 63)%Z ->
    q = int_sum (map Quantity (apply_filters (map row_of inv) fc fs))
    /\ (0 <= q)%Z.
Proof.
  intros inv fc fs out n q v l Hr Hrun Hin Hsum.
  apply view_inventory_shows in Hrun.
  destruct Hrun as [[_ ->]|(_ & _ & v0 & _ & ->)].
  { destruct Hin as [E|[]]. discriminate. }
  destruct Hin as [E|[E|[]]]; [discriminate|].
  injection E as _ <- _ _. unfold total_quantity.
  assert (Hpos : (0 <= int_sum (map Quantity (apply_filters (map row_of inv) fc fs)))%Z).
  { rewrite apply_filters_rows. apply int_sum_nonneg. rewrite map_map.
    apply Forall_forall. intros x Hx.
    apply in_map_iff in Hx as ([name it] & <- & Hin).
    apply filter_In in Hin as [Hin _].
    destruct (reachable_all_nonnegative Hr _ _ Hin) as (Hq & _). exact Hq. }
  assert (E : forall d,
             reduce d (int_sum (map Quantity (apply_filters (map row_of inv) fc fs)))
             = int_sum (map Quantity (apply_filters (map row_of inv) fc fs))).
  { intros d. destruct d; unfold reduce.
    - unfold wrap64. rewrite Z.mod_small; lia.
    - apply Z.mod_small. lia.
    - reflexivity. }
  rewrite E. split; [reflexivity | exact Hpos].
Qed.

Lemma reachable_total_quantity_nonnegative_witness :
  reachable seven_items
  /\ view_inventory seven_items All_categories All_statuses
     = Ok [Dataframe (map row_of seven_items); Metrics 7 524 533 3]
  /\ (524 = int_sum (map Quantity (apply_filters (map row_of seven_items)
                                      All_categories All_statuses))
      /\ 0 <= 524)%Z.
Proof.
  assert (Hrun : view_inventory seven_items All_categories All_statuses
                 = Ok [Dataframe (map row_of seven_items); Metrics 7 524 533 3])
    by reflexivity.
  split; [exact seven_items_reachable|]. split; [exact Hrun|].
  apply (@reachable_total_quantity_nonnegative seven_items
           All_categories All_statuses _ 7%nat 524%Z 533%float 3%nat
           seven_items_reachable Hrun (or_intror (or_introl eq_refl))).
  vm_compute. reflexivity.
Defined.

(* ================================================================== *)
(** ** The shape of a key *)

Section KeyShape.

Local Open Scope N_scope.

Lemma ascii_shape_table :
  forallb (fun n => ascii_shape_ok true (N.of_nat n)
                    && ascii_shape_ok false (N.of_nat n)) (seq 0 128) = true.
Proof. vm_compute. reflexivity. Qed.

Lemma ascii_shape (b : bool) (c : char) :
  is_ascii c -> ascii_shape_ok b c = true.
Proof.
  unfold is_ascii. intros Hc.
  assert (Hin : In (N.to_nat c) (seq 0 128)) by (apply in_seq; lia).
  pose proof (proj1 (forallb_forall _ _) ascii_shape_table _ Hin) as H.
  cbv beta in H. rewrite N2Nat.id in H. apply andb_true_iff in H as [Ht Hf].
  destruct b; assumption.
Qed.

Lemma do_title_ascii_shape (s : str) :
  Forall is_ascii s -> forall b, title_shape b (do_title b s) = true.
Proof.
  induction 1 as [|c t Hc Ht IH]; intros b; [reflexivity|].
  destruct (StrFacts.ascii_case_map b Hc) as (d & E & _ & _ & Hcased & _).
  pose proof (ascii_shape b Hc) as Hshape. unfold ascii_shape_ok in Hshape.
  rewrite StrFacts.do_title_cons, E in *. simpl app. simpl title_shape.
  rewrite Hshape, Hcased. apply IH.
Qed.

Lemma do_title_ascii_length (s : str) :
  Forall is_ascii s -> forall b, List.length (do_title b s) = List.length s.
Proof.
  induction 1 as [|c t Hc Ht IH]; intros b; [reflexivity|].
  destruct (StrFacts.ascii_case_map b Hc) as (d & E & _).
  rewrite StrFacts.do_title_cons, E. simpl. now rewrite IH.
Qed.

End KeyShape.

(** X19.  The key made from an ASCII name is in title case (a letter that
    follows a letter is lower case, any other letter is upper case), has
    no whitespace at either end, and is as long as the name without the
    whitespace around it. *)
Theorem normalize_ascii_shape :
  forall s : str,
    Forall is_ascii s ->
    title_shape false (normalize s) = true
    /\ strip (normalize s) = normalize s
    /\ List.length (normalize s) = List.length (strip s).
Proof.
  intros s Hs. pose proof (StrFacts.strip_ascii Hs) as Ha.
  unfold normalize, title. split; [|split].
  - now apply do_title_ascii_shape.
  - apply StrFacts.stripped_strip.
    apply (StrFacts.title_ascii_stripped Ha (StrFacts.strip_stripped s)).
  - now apply do_title_ascii_length.
Qed.

Lemma normalize_ascii_shape_witness :
  Forall is_ascii (lit " they're HERE ")
  /\ normalize (lit " they're HERE ") = lit "They'Re Here"
  /\ title_shape false (normalize (lit " they're HERE ")) = true
  /\ strip (normalize (lit " they're HERE ")) = normalize (lit " they're HERE ")
  /\ List.length (normalize (lit " they're HERE "))
     = List.length (strip (lit " they're HERE ")).
Proof.
  assert (H : Forall is_ascii (lit " they're HERE ")) by repeat constructor.
  split; [exact H|]. split; [reflexivity|].
  exact (@normalize_ascii_shape (lit " they're HERE ") H).
Defined.
